(** * LorebookScript.py: lorebook to SillyTavern World Info conversion

    A shallow embedding of [src/LorebookScript.py].  Values read by
    [json.load] are modelled by the inductive type [json]; Python
    exceptions by the error monad [result]; the insertion-ordered Python
    [dict] by an association list whose keys are kept distinct by
    [dict_set]; the command-line driver [main] by explicit state passing
    over the library calls it makes ([open], [json.load], [json.dump]),
    each taken with the exceptions it can raise. *)

From Stdlib Require Import String Ascii.
From Stdlib Require Import List ZArith NArith Bool Lia.
From Stdlib Require Decimal DecimalString DecimalNat.
From Stdlib Require Import Floats.SpecFloat.
Import ListNotations.

Set Implicit Arguments.
Set Warnings "-register-all".

(* ================================================================= *)
(** ** Python strings *)

(** A Python 3 [str] is a sequence of Unicode code points. *)
Definition codepoint := N.
Definition str := list codepoint.

(** Source literals are ASCII; [u "key"] is the [str] written ["key"]. *)
Definition u (s : string) : str := map N_of_ascii (list_ascii_of_string s).

Fixpoint str_eqb (a b : str) : bool :=
  match a, b with
  | [], [] => true
  | x :: a', y :: b' => N.eqb x y && str_eqb a' b'
  | _, _ => false
  end.

(** [str.startswith] and the substring test [p in s]. *)
Fixpoint startswith (p s : str) : bool :=
  match p, s with
  | [], _ => true
  | _ :: _, [] => false
  | x :: p', y :: s' => N.eqb x y && startswith p' s'
  end.

Fixpoint str_contains (p s : str) : bool :=
  startswith p s
  || match s with
     | [] => false
     | _ :: s' => str_contains p s'
     end.

(** [str.isspace] on one code point (CPython's [_PyUnicode_IsWhitespace]). *)
Definition isspace (c : codepoint) : bool :=
  ((9 <=? c) && (c <=? 13) || (28 <=? c) && (c <=? 32)
   || (c =? 133) || (c =? 160) || (c =? 5760)
   || (8192 <=? c) && (c <=? 8202)
   || (c =? 8232) || (c =? 8233) || (c =? 8239) || (c =? 8287)
   || (c =? 12288))%N.

Fixpoint lstrip (s : str) : str :=
  match s with
  | [] => []
  | c :: s' => if isspace c then lstrip s' else s
  end.

Definition rstrip (s : str) : str := rev (lstrip (rev s)).

(** [s.strip()] with no argument. *)
Definition strip (s : str) : str := rstrip (lstrip s).

(** [s.split(sep)] for a one-character separator: never an empty list,
    [''.split(',') = ['']]. *)
Fixpoint split (sep : codepoint) (s : str) : list str :=
  match s with
  | [] => [[]]
  | c :: s' =>
      if N.eqb c sep then [] :: split sep s'
      else match split sep s' with
           | [] => [[c]]
           | p :: ps => (c :: p) :: ps
           end
  end.

Definition comma : codepoint := 44%N.

(** [str(n)] for a non-negative [int]. *)
Definition str_of_nat (n : nat) : str :=
  u (DecimalString.NilZero.string_of_uint (Nat.to_uint n)).

(* ================================================================= *)
(** ** JSON values as [json.load] returns them *)

(** [int] is unbounded; a [float] is kept as sign, mantissa and exponent
    (or zero, infinity, NaN: [json.load] accepts [NaN] and [Infinity]),
    the binary64 values being among them; an object is a [dict] in
    insertion order.  The keys of a [dict] built by [json.load] are
    distinct; nothing below depends on it. *)
Inductive json : Type :=
| JNull
| JBool (b : bool)
| JInt (z : Z)
| JFloat (f : spec_float)
| JStr (s : str)
| JList (l : list json)
| JDict (d : list (str * json)).

(* ================================================================= *)
(** ** Insertion-ordered dictionaries *)

Section Dict.
Variable V : Type.

Definition dict := list (str * V).

(** [k in d] *)
Fixpoint dict_mem (k : str) (d : dict) : bool :=
  match d with
  | [] => false
  | (k', _) :: d' => str_eqb k k' || dict_mem k d'
  end.

(** [d[k]], [None] standing for [KeyError]. *)
Fixpoint dict_get (k : str) (d : dict) : option V :=
  match d with
  | [] => None
  | (k', v) :: d' => if str_eqb k k' then Some v else dict_get k d'
  end.

(** [d[k] = v]: an existing key keeps its place, a new one goes last. *)
Fixpoint dict_set (k : str) (v : V) (d : dict) : dict :=
  match d with
  | [] => [(k, v)]
  | (k', v') :: d' =>
      if str_eqb k k' then (k', v) :: d' else (k', v') :: dict_set k v d'
  end.

Definition dict_keys (d : dict) : list str := map fst d.

(** [list(d.values())] *)
Definition dict_values (d : dict) : list V := map snd d.
End Dict.

(* ================================================================= *)
(** ** Exceptions *)

(** The exceptions the script can meet: the three its own code raises,
    the two [main] catches, and any other class raised by the file
    system or the [json] library ([PermissionError], [UnicodeDecodeError],
    [UnicodeEncodeError], [RecursionError], ...), kept by name. *)
Inductive exn : Type :=
| TypeError
| KeyError
| IndexError
| FileNotFoundError
| JSONDecodeError (msg : str)
| OtherError (class_name : str).

Inductive result (A : Type) : Type :=
| Ok (a : A)
| Raise (e : exn).

Arguments Ok {A} a.
Arguments Raise {A} e.

Definition bind {A B : Type} (m : result A) (k : A -> result B) : result B :=
  match m with
  | Ok a => k a
  | Raise e => Raise e
  end.

Notation "x <- m ;; k" := (bind m (fun x => k))
  (at level 61, m at next level, right associativity).

(* ================================================================= *)
(** ** Python operators used by the script *)

(** [name in entry] for a [str] name: key membership on a [dict], element
    equality on a [list], substring on a [str]; the other types are not
    iterable. *)
Definition is_str (name : str) (v : json) : bool :=
  match v with
  | JStr s => str_eqb s name
  | _ => false
  end.

Definition py_contains (name : str) (entry : json) : result bool :=
  match entry with
  | JDict d => Ok (dict_mem name d)
  | JList l => Ok (existsb (is_str name) l)
  | JStr s => Ok (str_contains name s)
  | _ => Raise TypeError
  end.

(** [entry[name]] for a [str] name: only a [dict] can be indexed by it. *)
Definition py_getitem (entry : json) (name : str) : result json :=
  match entry with
  | JDict d =>
      match dict_get name d with
      | Some v => Ok v
      | None => Raise KeyError
      end
  | _ => Raise TypeError
  end.

(** Truth value, for [not enabled]. *)
Definition truthy (v : json) : bool :=
  match v with
  | JNull => false
  | JBool b => b
  | JInt z => negb (Z.eqb z 0)
  | JFloat (S754_zero _) => false
  | JFloat _ => true
  | JStr s => negb (match s with [] => true | _ => false end)
  | JList l => negb (match l with [] => true | _ => false end)
  | JDict d => negb (match d with [] => true | _ => false end)
  end.

(** [f < n] for a float [f] and an int [n] is exact in Python. *)
Definition float_lt_int (f : spec_float) (n : Z) : bool :=
  match f with
  | S754_nan => false
  | S754_infinity neg => neg
  | S754_zero _ => Z.ltb 0 n
  | S754_finite neg m e =>
      let sm := if neg then Z.neg m else Z.pos m in
      if Z.leb 0 e then Z.ltb (sm * 2 ^ e) n
      else Z.ltb sm (n * 2 ^ (- e))
  end.

(** [v < n] for an int literal [n]: [bool] is a subclass of [int]; the
    other types raise [TypeError]. *)
Definition py_lt_int (v : json) (n : Z) : result bool :=
  match v with
  | JBool b => Ok (Z.ltb (Z.b2z b) n)
  | JInt z => Ok (Z.ltb z n)
  | JFloat f => Ok (float_lt_int f n)
  | _ => Raise TypeError
  end.

(* ================================================================= *)
(** ** [get_field] and [parse_keys] *)

(** Lines 11-16. *)
Fixpoint get_field (entry : json) (field_names : list str) (default : json)
  : result json :=
  match field_names with
  | [] => Ok default
  | name :: rest =>
      present <- py_contains name entry ;;
      if present then py_getitem entry name
      else get_field entry rest default
  end.

(** Lines 19-25. *)
Definition parse_keys (value : json) : list json :=
  match value with
  | JList l => l
  | JStr s =>
      flat_map (fun k => if truthy (JStr (strip k)) then [JStr (strip k)] else [])
               (split comma s)
  | _ => []
  end.

(* ================================================================= *)
(** ** [convert_to_sillytavern] *)

(** The dict literal of lines 57-82; fields copied from the input stay
    [json], the ones the script computes have their Python type. *)
Record st_entry : Type := {
  uid : nat;
  key : list json;
  keysecondary : list json;
  comment : json;
  content : json;
  constant : json;
  selective : bool;
  selectiveLogic : json;
  addMemo : bool;
  order : json;
  position : json;
  disable : bool;
  excludeRecursion : json;
  probability : json;
  useProbability : bool;
  depth : json;
  group : json;
  scanDepth : json;
  caseSensitive : json;
  matchWholeWords : json;
  automationId : json;
  role : json;
  vectorized : bool;
  displayIndex : nat
}.

(** The dict literal of lines 85-90. *)
Record document : Type := {
  name : str;
  description : str;
  extensions : dict json;
  entries : dict st_entry
}.

(** Body of the [for] loop, lines 34-82, for the element [entry] at
    position [idx]. *)
Definition normalize (entry : json) (idx : nat) : result st_entry :=
  raw_keys <- get_field entry
    [u "key"; u "keys"; u "keyword"; u "keywords"] (JList []) ;;
  let keys := parse_keys raw_keys in
  raw_keysecondary <- get_field entry
    [u "keysecondary"; u "secondary_keys"; u "keys_secondary"] (JList []) ;;
  let keysecondary' := parse_keys raw_keysecondary in
  content' <- get_field entry
    [u "content"; u "text"; u "entry"; u "body"; u "description"] (JStr (u "")) ;;
  comment' <- get_field entry
    [u "name"; u "comment"; u "title"; u "memo"; u "label"]
    (JStr (u "Entry " ++ str_of_nat idx)) ;;
  enabled <- get_field entry [u "enabled"; u "active"] (JBool true) ;;
  constant' <- get_field entry
    [u "constant"; u "always_active"; u "permanent"] (JBool false) ;;
  order' <- get_field entry
    [u "insertion_order"; u "order"; u "priority"; u "sort_order"] (JInt 100) ;;
  position' <- get_field entry [u "position"; u "insert_position"] (JInt 4) ;;
  depth' <- get_field entry [u "depth"; u "scan_depth"] (JInt 4) ;;
  probability' <- get_field entry
    [u "probability"; u "chance"; u "activation_chance"] (JInt 100) ;;
  case_sensitive <- get_field entry
    [u "case_sensitive"; u "caseSensitive"] (JBool false) ;;
  match_whole <- get_field entry
    [u "matchWholeWords"; u "match_whole_words"; u "whole_words"] JNull ;;
  selective_logic <- get_field entry
    [u "selectiveLogic"; u "selective_logic"] (JInt 0) ;;
  exclude_recursion <- get_field entry
    [u "excludeRecursion"; u "exclude_recursion"] (JBool false) ;;
  group' <- get_field entry
    [u "category"; u "group"; u "tag"; u "folder"] (JStr (u "")) ;;
  use_probability <- py_lt_int probability' 100 ;;
  Ok {| uid := idx;
        key := keys;
        keysecondary := keysecondary';
        comment := comment';
        content := content';
        constant := constant';
        selective := Nat.ltb 0 (length keysecondary');
        selectiveLogic := selective_logic;
        addMemo := true;
        order := order';
        position := position';
        disable := negb (truthy enabled);
        excludeRecursion := exclude_recursion;
        probability := probability';
        useProbability := use_probability;
        depth := depth';
        group := group';
        scanDepth := JNull;
        caseSensitive := case_sensitive;
        matchWholeWords := match_whole;
        automationId := JStr (u "");
        role := JNull;
        vectorized := false;
        displayIndex := idx |}.

(** The loop of lines 33-83 from position [idx] on, [acc] being the
    [entries] dict built so far. *)
Fixpoint convert_loop (idx : nat) (input_data : list json) (acc : dict st_entry)
  : result (dict st_entry) :=
  match input_data with
  | [] => Ok acc
  | entry :: rest =>
      st <- normalize entry idx ;;
      convert_loop (S idx) rest (dict_set (str_of_nat idx) st acc)
  end.

(** Lines 28-90. *)
Definition convert_to_sillytavern (input_data : list json) (lorebook_name : str)
  : result document :=
  es <- convert_loop 0 input_data [] ;;
  Ok {| name := lorebook_name;
        description := lorebook_name ++ u " World Info";
        extensions := [];
        entries := es |}.

(* ================================================================= *)
(** ** [extract_entries] *)

Definition container_keys : list str :=
  [u "entries"; u "items"; u "data"; u "lorebook"; u "worldInfo"; u "world_info"].

(** The [for] loop of lines 100-106 over the remaining candidate [keys];
    [None] when the loop ends without a [return].  [data[key]] cannot
    raise here, being guarded by [key in data]. *)
Fixpoint scan_containers (keys : list str) (data : dict json)
  : option (list json) :=
  match keys with
  | [] => None
  | k :: rest =>
      if dict_mem k data then
        match dict_get k data with
        | Some (JList l) => Some l
        | Some (JDict c) => Some (dict_values c)
        | _ => scan_containers rest data
        end
      else scan_containers rest data
  end.

(** Lines 93-110. *)
Definition extract_entries (data : json) : list json :=
  match data with
  | JList l => l
  | JDict d =>
      match scan_containers container_keys d with
      | Some found => found
      | None => [data]
      end
  | _ => []
  end.

(* ================================================================= *)
(** ** [main] *)

(** How the process ends: [sys.exit(code)], an exception nobody catches,
    or the normal return of [main]. *)
Inductive termination : Type :=
| Exit (code : Z)
| Uncaught (e : exn)
| Returned.

(** The exit status the interpreter reports. *)
Definition exit_status (t : termination) : Z :=
  match t with
  | Exit code => code
  | Uncaught _ => 1
  | Returned => 0
  end.

(** What a run leaves behind: how it ended, the lines printed, and the
    file system after it. *)
Record outcome (filesystem : Type) : Type := {
  ending : termination;
  stdout : list str;
  files : filesystem
}.

(** The library calls of [main], each with the exceptions it can raise.
    The file system is whatever the platform makes it: two path strings
    may name one file. *)
Record runtime (filesystem : Type) : Type := {
  (** [open(path, "r", encoding="utf-8")]: the content the file object
      delivers, or [FileNotFoundError], or another [OSError]. *)
  open_read : str -> filesystem -> result str;
  (** [json.load(f)], reading, decoding and parsing: the value, or
      [JSONDecodeError] with its message, or another exception
      ([UnicodeDecodeError], [RecursionError], [ValueError]). *)
  json_load : str -> result json;
  (** [open(path, "w", encoding="utf-8")]: the file system with the file
      created or emptied, or the [OSError] raised. *)
  open_write : str -> filesystem -> result filesystem;
  (** [json.dump(result, f, indent=2, ensure_ascii=False)] into the file
      opened at the path, and its closing: the file system afterwards,
      and the exception that interrupted the dump, if any
      ([UnicodeEncodeError] on a lone surrogate, an [OSError]); the file
      then holds what was written before it. *)
  json_dump : document -> str -> filesystem -> filesystem * option exn
}.

(** Lines 113-146, over the library calls [rt].  Standard output is
    taken to accept every line. *)
Definition main (filesystem : Type) (rt : runtime filesystem)
           (argv : list str) (fs : filesystem) : outcome filesystem :=
  match argv with
  | [] => {| ending := Uncaught IndexError; stdout := []; files := fs |}
  | script :: ([] | [_]) =>
      {| ending := Exit 1;
         stdout := [u "Usage: python " ++ script ++ u " <input.json> <output_name>";
                    u "Example: python " ++ script ++ u " my_lore.json MyWorld";
                    u "         Creates: MyWorld.json"];
         files := fs |}
  | _ :: input_file :: output_name :: _ =>
      let output_file := output_name ++ u ".json" in
      match (f <- open_read rt input_file fs ;; json_load rt f) with
      | Raise FileNotFoundError =>
          {| ending := Exit 1;
             stdout := [u "Error: '" ++ input_file ++ u "' not found"];
             files := fs |}
      | Raise (JSONDecodeError e) =>
          {| ending := Exit 1;
             stdout := [u "Error: Invalid JSON - " ++ e];
             files := fs |}
      | Raise e => {| ending := Uncaught e; stdout := []; files := fs |}
      | Ok raw_data =>
          let found := extract_entries raw_data in
          if negb (truthy (JList found)) then
            {| ending := Exit 1;
               stdout := [u "Error: No entries found in input"];
               files := fs |}
          else
            match convert_to_sillytavern found output_name with
            | Raise e => {| ending := Uncaught e; stdout := []; files := fs |}
            | Ok result =>
                match open_write rt output_file fs with
                | Raise e => {| ending := Uncaught e; stdout := []; files := fs |}
                | Ok opened =>
                    match json_dump rt result output_file opened with
                    | (written, Some e) =>
                        {| ending := Uncaught e; stdout := []; files := written |}
                    | (written, None) =>
                        {| ending := Returned;
                           stdout := [u "Converted " ++ str_of_nat (length found)
                                      ++ u " entries -> " ++ output_file];
                           files := written |}
                    end
                end
            end
      end
  end.

(** A runtime for the examples: files are kept in a dict under their
    path, every file parses to [parsed], a file is written whole with the
    name of the document as its text. *)
Definition sample_runtime (parsed : json) : runtime (dict str) :=
  {| open_read := fun path fs =>
       match dict_get path fs with
       | Some content => Ok content
       | None => Raise FileNotFoundError
       end;
     json_load := fun _ => Ok parsed;
     open_write := fun path fs => Ok (dict_set path [] fs);
     json_dump := fun doc path fs => (dict_set path (name doc) fs, None) |}.

(** The conversion was reached and raised nothing: the arguments name an
    input file that is read and parsed, extraction gives at least one raw
    entry, and [doc] is the document made of them. *)
Definition converted (filesystem : Type) (rt : runtime filesystem)
           (argv : list str) (fs : filesystem)
           (output_name : str) (raw_data : json) (doc : document) : Prop :=
  exists script input_file more content,
    argv = script :: input_file :: output_name :: more
    /\ open_read rt input_file fs = Ok content
    /\ json_load rt content = Ok raw_data
    /\ extract_entries raw_data <> []
    /\ convert_to_sillytavern (extract_entries raw_data) output_name = Ok doc.

(* ================================================================= *)
(** ** The alias table and the reference definitions *)

(** Every field name some [get_field] call of [normalize] looks for, in
    the order of lines 34-55. *)
Definition recognized_names : list str := concat
  [ [u "key"; u "keys"; u "keyword"; u "keywords"];
    [u "keysecondary"; u "secondary_keys"; u "keys_secondary"];
    [u "content"; u "text"; u "entry"; u "body"; u "description"];
    [u "name"; u "comment"; u "title"; u "memo"; u "label"];
    [u "enabled"; u "active"];
    [u "constant"; u "always_active"; u "permanent"];
    [u "insertion_order"; u "order"; u "priority"; u "sort_order"];
    [u "position"; u "insert_position"];
    [u "depth"; u "scan_depth"];
    [u "probability"; u "chance"; u "activation_chance"];
    [u "case_sensitive"; u "caseSensitive"];
    [u "matchWholeWords"; u "match_whole_words"; u "whole_words"];
    [u "selectiveLogic"; u "selective_logic"];
    [u "excludeRecursion"; u "exclude_recursion"];
    [u "category"; u "group"; u "tag"; u "folder"] ].

(** [name in entry] where it cannot raise. *)
Definition has_name (entry : json) (n : str) : bool :=
  match py_contains n entry with
  | Ok b => b
  | Raise _ => false
  end.

(** The values [v] for which [v < 100] is defined. *)
Definition comparable (v : json) : bool :=
  match v with
  | JBool _ | JInt _ | JFloat _ => true
  | _ => false
  end.

(** The raw entries on which the loop body raises nothing: an object
    whose probability can be compared with 100, or a list or string in
    which no alias name is found. *)
Definition normalizable (entry : json) : bool :=
  match entry with
  | JDict d =>
      match get_field entry
              [u "probability"; u "chance"; u "activation_chance"] (JInt 100) with
      | Ok p => comparable p
      | Raise _ => false
      end
  | JList _ | JStr _ => forallb (fun n => negb (has_name entry n)) recognized_names
  | _ => false
  end.

(** The entry made of defaults only, for position [idx]. *)
Definition default_entry (idx : nat) : st_entry :=
  {| uid := idx;
     key := [];
     keysecondary := [];
     comment := JStr (u "Entry " ++ str_of_nat idx);
     content := JStr (u "");
     constant := JBool false;
     selective := false;
     selectiveLogic := JInt 0;
     addMemo := true;
     order := JInt 100;
     position := JInt 4;
     disable := false;
     excludeRecursion := JBool false;
     probability := JInt 100;
     useProbability := false;
     depth := JInt 4;
     group := JStr (u "");
     scanDepth := JNull;
     caseSensitive := JBool false;
     matchWholeWords := JNull;
     automationId := JStr (u "");
     role := JNull;
     vectorized := false;
     displayIndex := idx |}.

(** Key-list coercion as the specification words it: a list passes
    through; a string is split on commas, each piece trimmed, the empty
    pieces dropped; anything else gives the empty list. *)
Definition nonempty (s : str) : bool :=
  match s with
  | [] => false
  | _ :: _ => true
  end.

Definition parse_keys_reference (value : json) : list json :=
  match value with
  | JList l => l
  | JStr s => map JStr (filter nonempty (map strip (split comma s)))
  | _ => []
  end.

(** What a container value contributes, when it is a list or a dict. *)
Definition as_entries (v : json) : option (list json) :=
  match v with
  | JList l => Some l
  | JDict c => Some (dict_values c)
  | _ => None
  end.

(** [k] is a key of [d] holding a list or a dict. *)
Definition usable_at (d : dict json) (k : str) : bool :=
  match dict_get k d with
  | Some v => match as_entries v with Some _ => true | None => false end
  | None => false
  end.

(** [sep.join(pieces)] for a one-character separator. *)
Fixpoint join (sep : codepoint) (pieces : list str) : str :=
  match pieces with
  | [] => []
  | [p] => p
  | p :: rest => p ++ sep :: join sep rest
  end.

(** A key as the string branch of [parse_keys] leaves it: a non-empty
    string with no comma and no whitespace at either end. *)
Definition trimmed_piece (x : json) : bool :=
  match x with
  | JStr p =>
      nonempty p && negb (existsb (N.eqb comma) p)
      && negb (isspace (hd 0%N p)) && negb (isspace (last p 0%N))
  | _ => false
  end.

(** The entries dict holding [sts] under the keys [str(idx)],
    [str(idx+1)], ... in this order. *)
Fixpoint numbered (idx : nat) (sts : list st_entry) : dict st_entry :=
  match sts with
  | [] => []
  | st :: rest => (str_of_nat idx, st) :: numbered (S idx) rest
  end.

(** The entry [e] moved to position [idx] with the label [c]: every
    other field is kept. *)
Definition reindex (idx : nat) (c : json) (e : st_entry) : st_entry :=
  {| uid := idx;
     key := key e;
     keysecondary := keysecondary e;
     comment := c;
     content := content e;
     constant := constant e;
     selective := selective e;
     selectiveLogic := selectiveLogic e;
     addMemo := addMemo e;
     order := order e;
     position := position e;
     disable := disable e;
     excludeRecursion := excludeRecursion e;
     probability := probability e;
     useProbability := useProbability e;
     depth := depth e;
     group := group e;
     scanDepth := scanDepth e;
     caseSensitive := caseSensitive e;
     matchWholeWords := matchWholeWords e;
     automationId := automationId e;
     role := role e;
     vectorized := vectorized e;
     displayIndex := idx |}.

(* ================================================================= *)
(** ** Four claims as the specification words them *)

(** Each of the next four statements fails on a concrete input given
    below, where the statement the code satisfies is proved in its
    place. *)

(** C1 as the claim reads: the loop body returns an entry for every
    JSON value. *)
Definition normalize_total : Prop :=
  forall (entry : json) (idx : nat), exists e, normalize entry idx = Ok e.

(** C2 as the claim reads: when the first candidate key present in the
    dict holds neither a list nor a dict, the result is empty. *)
Definition first_present_key_wins : Prop :=
  forall (d : dict json) (k : str) (v : json),
    find (fun c => dict_mem c d) container_keys = Some k ->
    dict_get k d = Some v ->
    as_entries v = None ->
    extract_entries (JDict d) = [].

(** C7 as the claim reads: the default is returned exactly when no
    candidate name is a key of the entry. *)
Definition get_field_default_iff_absent : Prop :=
  forall (d : dict json) (names : list str) (default : json),
    get_field (JDict d) names default = Ok default
    <-> (forall n, In n names -> dict_mem n d = false).

(** C9 as the claim reads: every entry built has an integer probability
    between 0 and 100. *)
Definition probability_in_range : Prop :=
  forall (entry : json) (idx : nat) (e : st_entry),
    normalize entry idx = Ok e ->
    exists z, probability e = JInt z /\ (0 <= z <= 100)%Z.

(* ================================================================= *)
(** ** Strings and dictionaries: basic facts *)

Lemma str_eqb_eq (a b : str) : str_eqb a b = true <-> a = b.
Proof.
  revert b; induction a as [|x a IH]; intros [|y b]; simpl;
    try (split; [discriminate | intros H; inversion H]); try tauto.
  rewrite andb_true_iff, N.eqb_eq, IH.
  split; [intros [-> ->]; reflexivity | intros H; inversion H; auto].
Qed.

Lemma str_eqb_refl (a : str) : str_eqb a a = true.
Proof. apply str_eqb_eq; reflexivity. Qed.

Lemma str_eqb_neq (a b : str) : str_eqb a b = false <-> a <> b.
Proof.
  rewrite <- str_eqb_eq. destruct (str_eqb a b); split; congruence.
Qed.

Lemma u_inj (s t : string) : u s = u t -> s = t.
Proof.
  unfold u; intros H.
  rewrite <- (string_of_list_ascii_of_string s), <- (string_of_list_ascii_of_string t).
  f_equal.
  assert (Hmap : map ascii_of_N (map N_of_ascii (list_ascii_of_string s))
                 = map ascii_of_N (map N_of_ascii (list_ascii_of_string t)))
    by (rewrite H; reflexivity).
  rewrite !map_map in Hmap.
  rewrite (map_ext _ (fun a => a)), (map_ext (fun a => ascii_of_N (N_of_ascii a)) (fun a => a))
    in Hmap by (intros; apply ascii_N_embedding).
  rewrite !map_id in Hmap. exact Hmap.
Qed.

Lemma to_uint_nonnil (n : nat) : Nat.to_uint n <> Decimal.Nil.
Proof.
  rewrite <- (DecimalNat.Unsigned.of_to n) at 1.
  rewrite DecimalNat.Unsigned.to_of.
  unfold Decimal.unorm. destruct (Decimal.nzhead (Nat.to_uint n)); discriminate.
Qed.

Lemma str_of_nat_inj (n m : nat) : str_of_nat n = str_of_nat m -> n = m.
Proof.
  unfold str_of_nat; intros H. apply u_inj in H.
  apply DecimalNat.Unsigned.to_uint_inj.
  assert (Hs : DecimalString.NilZero.uint_of_string
                 (DecimalString.NilZero.string_of_uint (Nat.to_uint n))
               = DecimalString.NilZero.uint_of_string
                 (DecimalString.NilZero.string_of_uint (Nat.to_uint m)))
    by (rewrite H; reflexivity).
  rewrite !DecimalString.NilZero.usu in Hs by apply to_uint_nonnil.
  congruence.
Qed.

Section DictFacts.
Variable V : Type.
Implicit Types (d : dict V) (k : str) (v : V).

Lemma dict_mem_get k d :
  dict_mem k d = true <-> exists v, dict_get k d = Some v.
Proof.
  induction d as [|[k' v'] d IH]; simpl.
  - split; [discriminate | intros [v H]; discriminate].
  - destruct (str_eqb k k'); simpl; [|exact IH].
    split; [eauto | reflexivity].
Qed.

Lemma dict_mem_false_get k d : dict_mem k d = false <-> dict_get k d = None.
Proof.
  induction d as [|[k' v'] d IH]; simpl; [tauto|].
  destruct (str_eqb k k'); simpl; [|exact IH].
  split; discriminate.
Qed.

Lemma dict_mem_set_other k k' v d :
  k <> k' -> dict_mem k (dict_set k' v d) = dict_mem k d.
Proof.
  intros Hne. induction d as [|[k0 v0] d IH]; simpl.
  - apply str_eqb_neq in Hne. rewrite Hne. reflexivity.
  - destruct (str_eqb k' k0) eqn:E; simpl; [reflexivity|].
    rewrite IH. reflexivity.
Qed.

Lemma dict_get_set_other k k' v d :
  k <> k' -> dict_get k (dict_set k' v d) = dict_get k d.
Proof.
  intros Hne. induction d as [|[k0 v0] d IH]; simpl.
  - apply str_eqb_neq in Hne. rewrite Hne. reflexivity.
  - destruct (str_eqb k' k0) eqn:E; simpl.
    + apply str_eqb_eq in E; subst k0.
      apply str_eqb_neq in Hne. rewrite Hne. reflexivity.
    + rewrite IH. reflexivity.
Qed.

Lemma dict_set_fresh k v d :
  dict_mem k d = false -> dict_set k v d = d ++ [(k, v)].
Proof.
  induction d as [|[k0 v0] d IH]; simpl; [reflexivity|].
  intros H. apply orb_false_iff in H as [H1 H2].
  rewrite H1, IH by assumption. reflexivity.
Qed.

Lemma dict_mem_keys k d : dict_mem k d = true <-> In k (dict_keys d).
Proof.
  induction d as [|[k0 v0] d IH]; simpl.
  - split; [discriminate | tauto].
  - rewrite orb_true_iff, str_eqb_eq, IH. split; intros [H|H]; auto.
Qed.
End DictFacts.

(* ================================================================= *)
(** ** [get_field] on a mapping *)

Lemma get_field_absent (d : dict json) (names : list str) (default : json) :
  (forall n, In n names -> dict_mem n d = false) ->
  get_field (JDict d) names default = Ok default.
Proof.
  induction names as [|n names IH]; intros H; simpl; [reflexivity|].
  rewrite (H n) by (left; reflexivity). simpl.
  apply IH. intros m Hm. apply H. right; exact Hm.
Qed.

Lemma get_field_first (d : dict json) (pre post : list str) (n : str)
      (v default : json) :
  (forall m, In m pre -> dict_mem m d = false) ->
  dict_get n d = Some v ->
  get_field (JDict d) (pre ++ n :: post) default = Ok v.
Proof.
  intros Hpre Hn. induction pre as [|m pre IH]; simpl.
  - assert (Hmem : dict_mem n d = true) by (apply dict_mem_get; eauto).
    rewrite Hmem. simpl. rewrite Hn. reflexivity.
  - rewrite (Hpre m) by (left; reflexivity). simpl.
    apply IH. intros m' Hm'. apply Hpre. right; exact Hm'.
Qed.

(** On a mapping [get_field] never raises. *)
Lemma get_field_dict_total (d : dict json) (names : list str) (default : json) :
  exists v, get_field (JDict d) names default = Ok v.
Proof.
  induction names as [|n names IH]; simpl; [eauto|].
  destruct (dict_mem n d) eqn:E; simpl; [|exact IH].
  apply dict_mem_get in E as [v Hv]. rewrite Hv. eauto.
Qed.

Lemma get_field_present (d : dict json) (names : list str) (default v : json) :
  get_field (JDict d) names default = Ok v ->
  v <> default ->
  exists n, In n names /\ dict_get n d = Some v.
Proof.
  induction names as [|n names IH]; simpl; intros H Hne.
  - congruence.
  - destruct (dict_mem n d) eqn:E; simpl in H.
    + destruct (dict_get n d) as [w|] eqn:G; [|discriminate].
      exists n. split; [left; reflexivity | congruence].
    + destruct (IH H Hne) as [m [Hm Hg]]. exists m. split; [right|]; assumption.
Qed.

(** A key outside the candidate names does not influence the lookup. *)
Lemma get_field_set_other (d : dict json) (names : list str) (default : json)
      (k : str) (v : json) :
  ~ In k names ->
  get_field (JDict (dict_set k v d)) names default = get_field (JDict d) names default.
Proof.
  induction names as [|n names IH]; intros Hk; simpl; [reflexivity|].
  assert (Hne : n <> k) by (intros ->; apply Hk; left; reflexivity).
  rewrite dict_mem_set_other, dict_get_set_other by exact Hne.
  rewrite IH; [reflexivity|]. intros Hin. apply Hk. right; exact Hin.
Qed.

(** C7 (counterexample): with entry [{"enabled": true}], candidate
    [enabled] and default [True], [get_field] returns [True], the default
    value, although the candidate is a key of the entry: the "only if"
    half of the claim fails. *)
Lemma get_field_default_iff_absent_fails : ~ get_field_default_iff_absent.
Proof.
  intros H.
  specialize (H [(u "enabled", JBool true)] [u "enabled"] (JBool true)).
  destruct H as [H _].
  specialize (H eq_refl (u "enabled") (or_introl eq_refl)).
  discriminate H.
Qed.

(** C7 (amended): on a mapping, [get_field] returns the value stored
    under the first candidate name that is a key of the entry, whatever
    that value is (the test is key membership, so [false], [0], [""] and
    [null] are returned like any other value); it returns the default when
    no candidate name is a key; and a result different from the default
    is always the value stored under some candidate name. *)
Theorem get_field_mapping (d : dict json) (names : list str) (default : json) :
  (forall pre n post v,
      names = pre ++ n :: post ->
      (forall m, In m pre -> dict_mem m d = false) ->
      dict_get n d = Some v ->
      get_field (JDict d) names default = Ok v)
  /\ ((forall n, In n names -> dict_mem n d = false) ->
      get_field (JDict d) names default = Ok default)
  /\ (forall v,
        get_field (JDict d) names default = Ok v ->
        v <> default ->
        exists n, In n names /\ dict_get n d = Some v).
Proof.
  split; [|split].
  - intros pre n post v -> Hpre Hn. apply get_field_first; assumption.
  - apply get_field_absent.
  - intros v. apply get_field_present.
Qed.

Lemma get_field_mapping_witness :
  get_field (JDict [(u "active", JBool false); (u "title", JStr (u ""))])
            [u "enabled"; u "active"] (JBool true) = Ok (JBool false)
  /\ get_field (JDict [(u "active", JBool false); (u "title", JStr (u ""))])
               [u "name"; u "comment"] JNull = Ok JNull
  /\ exists n, In n [u "memo"; u "title"]
               /\ dict_get n [(u "active", JBool false); (u "title", JStr (u ""))]
                  = Some (JStr (u "")).
Proof.
  split; [|split].
  - apply (proj1 (get_field_mapping
                    [(u "active", JBool false); (u "title", JStr (u ""))]
                    [u "enabled"; u "active"] (JBool true))
             [u "enabled"] (u "active") [] (JBool false)).
    + reflexivity.
    + intros m [<-|[]]. reflexivity.
    + reflexivity.
  - apply (proj1 (proj2 (get_field_mapping
                    [(u "active", JBool false); (u "title", JStr (u ""))]
                    [u "name"; u "comment"] JNull))).
    intros n [<-|[<-|[]]]; reflexivity.
  - apply (proj2 (proj2 (get_field_mapping
                    [(u "active", JBool false); (u "title", JStr (u ""))]
                    [u "memo"; u "title"] JNull)) (JStr (u ""))).
    + reflexivity.
    + discriminate.
Defined.

(* ================================================================= *)
(** ** [strip] and [split] *)

Lemma lstrip_split (s : str) :
  exists ws, s = ws ++ lstrip s /\ forallb isspace ws = true.
Proof.
  induction s as [|c s [ws [Hs Hws]]]; cbn [lstrip].
  - exists []. split; reflexivity.
  - destruct (isspace c) eqn:E.
    + exists (c :: ws). cbn [forallb app]. rewrite E, Hws, <- Hs. split; reflexivity.
    + exists []. split; reflexivity.
Qed.

Lemma lstrip_head (s r : str) (c : codepoint) :
  lstrip s = c :: r -> isspace c = false.
Proof.
  induction s as [|a s IH]; cbn [lstrip]; [discriminate|].
  destruct (isspace a) eqn:E; [exact IH|].
  intros H. injection H as <- _. exact E.
Qed.

Lemma forallb_rev (A : Type) (f : A -> bool) (l : list A) :
  forallb f (rev l) = forallb f l.
Proof.
  induction l as [|a l IH]; simpl; [reflexivity|].
  rewrite forallb_app, IH. simpl. rewrite andb_true_r, andb_comm. reflexivity.
Qed.

Lemma rstrip_split (s : str) :
  exists ws, s = rstrip s ++ ws /\ forallb isspace ws = true.
Proof.
  unfold rstrip. destruct (lstrip_split (rev s)) as [ws [Hs Hws]].
  exists (rev ws). split.
  - rewrite <- rev_app_distr, <- Hs, rev_involutive. reflexivity.
  - rewrite forallb_rev. exact Hws.
Qed.

(** [strip] removes a run of whitespace at each end and nothing else. *)
Lemma strip_split (s : str) :
  exists a b,
    s = a ++ strip s ++ b /\ forallb isspace a = true /\ forallb isspace b = true.
Proof.
  unfold strip.
  destruct (lstrip_split s) as [a [Ha Hwa]].
  destruct (rstrip_split (lstrip s)) as [b [Hb Hwb]].
  exists a, b. rewrite <- Hb, <- Ha. repeat split; assumption.
Qed.

Lemma strip_head (s r : str) (c : codepoint) :
  strip s = c :: r -> isspace c = false.
Proof.
  unfold strip. intros H.
  destruct (rstrip_split (lstrip s)) as [b [Hb _]].
  rewrite H in Hb. simpl in Hb. exact (@lstrip_head s _ c Hb).
Qed.

Lemma strip_last (s r : str) (c : codepoint) :
  strip s = r ++ [c] -> isspace c = false.
Proof.
  unfold strip, rstrip. intros H.
  apply (f_equal (@rev codepoint)) in H.
  rewrite rev_involutive, rev_app_distr in H. simpl in H.
  exact (@lstrip_head _ _ c H).
Qed.

Lemma split_not_nil (sep : codepoint) (s : str) : split sep s <> [].
Proof.
  destruct s as [|c s]; simpl; [discriminate|].
  destruct (N.eqb c sep); [discriminate|].
  destruct (split sep s); discriminate.
Qed.

(** Joining the pieces with the separator gives the string back. *)
Lemma join_split (sep : codepoint) (s : str) : join sep (split sep s) = s.
Proof.
  induction s as [|c s IH]; [reflexivity|].
  cbn [split]. destruct (N.eqb c sep) eqn:E.
  - apply N.eqb_eq in E. subst c.
    destruct (split sep s) as [|p ps] eqn:Hs; [now apply split_not_nil in Hs|].
    cbn [join app]. cbn [join] in IH. rewrite IH. reflexivity.
  - destruct (split sep s) as [|p ps] eqn:Hs; [now apply split_not_nil in Hs|].
    destruct ps as [|q ps]; cbn [join app] in *; rewrite IH; reflexivity.
Qed.

Lemma split_no_sep (sep : codepoint) (s p : str) :
  In p (split sep s) -> existsb (N.eqb sep) p = false.
Proof.
  revert p; induction s as [|c s IH]; intros p; cbn [split].
  - intros [<-|[]]. reflexivity.
  - destruct (N.eqb c sep) eqn:E.
    + intros [<-|H]; [reflexivity | exact (IH p H)].
    + destruct (split sep s) as [|q qs]; cbn [In].
      * intros [<-|[]]. simpl. rewrite N.eqb_sym, E. reflexivity.
      * intros [<-|H].
        -- simpl. rewrite N.eqb_sym, E. simpl. apply IH. left; reflexivity.
        -- apply IH. right; exact H.
Qed.

Lemma strip_no_sep (sep : codepoint) (s : str) :
  existsb (N.eqb sep) s = false -> existsb (N.eqb sep) (strip s) = false.
Proof.
  destruct (strip_split s) as [a [b [Hs _]]]. intros H.
  rewrite Hs, !existsb_app in H.
  apply orb_false_iff in H as [_ H]. apply orb_false_iff in H as [H _]. exact H.
Qed.

Lemma trimmed_strip (k : str) :
  existsb (N.eqb comma) k = false ->
  nonempty (strip k) = true ->
  trimmed_piece (JStr (strip k)) = true.
Proof.
  intros Hsep Hne. unfold trimmed_piece.
  rewrite Hne, (strip_no_sep comma k Hsep). cbn [negb andb].
  destruct (strip k) as [|c r] eqn:Hk; [discriminate Hne|].
  cbn [hd]. rewrite (@strip_head k r c Hk). cbn [negb andb].
  destruct (exists_last (l := c :: r)) as [r' [z Hz]]; [discriminate|].
  rewrite Hz, last_last. rewrite Hz in Hk. rewrite (@strip_last k r' z Hk). reflexivity.
Qed.

Lemma parse_keys_trimmed (s : str) :
  forallb trimmed_piece (parse_keys (JStr s)) = true.
Proof.
  cbn [parse_keys].
  assert (H : forall p, In p (split comma s) -> existsb (N.eqb comma) p = false)
    by (intros p; apply split_no_sep).
  induction (split comma s) as [|k ks IH]; [reflexivity|].
  cbn [flat_map]. rewrite forallb_app, IH by (intros p Hp; apply H; right; exact Hp).
  rewrite andb_true_r.
  destruct (truthy (JStr (strip k))) eqn:E; [|reflexivity].
  cbn [forallb]. rewrite andb_true_r. apply trimmed_strip.
  - apply H. left; reflexivity.
  - destruct (strip k); [discriminate E | reflexivity].
Qed.

(* ================================================================= *)
(** ** [parse_keys] *)

Example parse_keys_example :
  parse_keys (JStr (u "a, b ,,c")) = [JStr (u "a"); JStr (u "b"); JStr (u "c")].
Proof. reflexivity. Qed.

Lemma comprehension_filter_map (pieces : list str) :
  flat_map (fun k => if truthy (JStr (strip k)) then [JStr (strip k)] else []) pieces
  = map JStr (filter nonempty (map strip pieces)).
Proof.
  induction pieces as [|k pieces IH]; [reflexivity|].
  cbn [flat_map map filter]. rewrite IH.
  destruct (strip k) as [|c r]; reflexivity.
Qed.

(** C8: [parse_keys] agrees with the reference definition on every JSON
    value: a list is returned as it is, whatever its elements; a string
    is split on commas, each piece trimmed and the empty pieces dropped,
    so that ["a, b ,,c"] gives [["a", "b", "c"]] and every key got from a
    string is non-empty, free of commas and of whitespace at its ends;
    every other value gives the empty list. *)
Theorem parse_keys_matches_reference :
  (forall value, parse_keys value = parse_keys_reference value)
  /\ (forall l, parse_keys (JList l) = l)
  /\ parse_keys (JStr (u "a, b ,,c")) = [JStr (u "a"); JStr (u "b"); JStr (u "c")]
  /\ parse_keys JNull = []
  /\ (forall b, parse_keys (JBool b) = [])
  /\ (forall z, parse_keys (JInt z) = [])
  /\ (forall f, parse_keys (JFloat f) = [])
  /\ (forall d, parse_keys (JDict d) = [])
  /\ (forall s, forallb trimmed_piece (parse_keys (JStr s)) = true).
Proof.
  split.
  - intros [| b | z | f | s | l | d]; simpl; try reflexivity.
    apply comprehension_filter_map.
  - repeat split; try reflexivity. apply parse_keys_trimmed.
Qed.

(* ================================================================= *)
(** ** The loop body on a mapping *)

(** Membership in [recognized_names], one alias list at a time. *)
Ltac in_alias_table :=
  unfold recognized_names; apply in_concat; eexists; split;
  [ | eassumption ]; cbn [In]; repeat (first [left; reflexivity | right]).

Lemma not_in_recognized (k : str) :
  existsb (str_eqb k) recognized_names = false -> ~ In k recognized_names.
Proof.
  intros H Hin.
  assert (Ht : existsb (str_eqb k) recognized_names = true)
    by (apply existsb_exists; exists k; split; [exact Hin | apply str_eqb_refl]).
  congruence.
Qed.

(** C6: a raw entry object with none of the recognized alias names is
    normalized to the entry made of defaults only: comment "Entry idx",
    empty content, no keys, order 100, position 4, depth 4, probability
    100, all flags false, selectiveLogic 0, empty group, matchWholeWords
    null, together with the fixed fields and uid = displayIndex = idx. *)
Theorem normalize_defaults (d : dict json) (idx : nat) :
  (forall n, In n recognized_names -> dict_mem n d = false) ->
  normalize (JDict d) idx = Ok (default_entry idx).
Proof.
  intros H. unfold normalize.
  rewrite !get_field_absent by (intros n Hn; apply H; in_alias_table).
  reflexivity.
Qed.

Lemma normalize_defaults_witness :
  normalize (JDict [(u "foo", JStr (u "bar"))]) 7 = Ok (default_entry 7).
Proof.
  apply (normalize_defaults [(u "foo", JStr (u "bar"))] 7).
  intros n Hn.
  destruct (dict_mem n [(u "foo", JStr (u "bar"))]) eqn:E; [|reflexivity].
  exfalso. cbn [dict_mem] in E. rewrite orb_false_r in E.
  apply str_eqb_eq in E. subst n. revert Hn.
  apply not_in_recognized. vm_compute. reflexivity.
Defined.

(** Replace the next [get_field] call on the mapping [d] by its value. *)
Ltac field_value d :=
  match goal with
  | |- context [get_field (JDict d) ?names ?default] =>
      let v := fresh "v" in
      let Hv := fresh "Hv" in
      destruct (get_field_dict_total d names default) as [v Hv];
      rewrite Hv; cbn [bind]
  end.

(** Peel the next [get_field] call off a successful run [H]. *)
Ltac field_of_run H :=
  match type of H with
  | context [get_field ?entry ?names ?default] =>
      let v := fresh "v" in
      let Hv := fresh "Hv" in
      destruct (get_field entry names default) as [v|] eqn:Hv;
      cbn [bind] in H; [ | discriminate H ]
  end.

Lemma py_lt_int_comparable (v : json) (n : Z) :
  comparable v = true <-> exists b, py_lt_int v n = Ok b.
Proof.
  destruct v; simpl; split; intros H; eauto; try discriminate;
    destruct H as [b H]; discriminate.
Qed.

(** A key that is no alias name does not influence the loop body. *)
Lemma normalize_set_other (d : dict json) (idx : nat) (k : str) (v : json) :
  ~ In k recognized_names ->
  normalize (JDict (dict_set k v d)) idx = normalize (JDict d) idx.
Proof.
  intros Hk. unfold normalize.
  rewrite !get_field_set_other
    by (intros Hin; apply Hk; in_alias_table).
  reflexivity.
Qed.

Lemma get_field_no_name (entry : json) (names : list str) (default v : json) :
  (forall n, In n names -> has_name entry n = false) ->
  get_field entry names default = Ok v ->
  v = default.
Proof.
  induction names as [|n names IH]; simpl; intros Hn H; [congruence|].
  assert (Hh := Hn n (or_introl eq_refl)). unfold has_name in Hh.
  destruct (py_contains n entry) as [b|]; simpl in H; [|discriminate].
  subst b. apply IH; auto.
Qed.

(** The derived fields of an entry built from [entry], given the
    resolved enabled flag [b] and probability [p]. *)
Lemma normalize_derived (entry : json) (idx : nat) (b : bool) (p : json)
      (e : st_entry) :
  get_field entry [u "enabled"; u "active"] (JBool true) = Ok (JBool b) ->
  get_field entry [u "probability"; u "chance"; u "activation_chance"] (JInt 100)
    = Ok p ->
  normalize entry idx = Ok e ->
  selective e = Nat.ltb 0 (length (keysecondary e))
  /\ probability e = p
  /\ py_lt_int p 100 = Ok (useProbability e)
  /\ disable e = negb b.
Proof.
  intros Hen Hp H. unfold normalize in H. rewrite Hen, Hp in H.
  repeat field_of_run H.
  destruct (py_lt_int p 100) as [lt|]; cbn [bind] in H; [|discriminate H].
  injection H as <-. repeat split.
Qed.

(** C4: for every entry built from a raw entry whose resolved enabled
    value is a boolean and whose resolved probability can be compared
    with 100 (an int or a float; a bool counts as an int), the derived
    fields agree with the fields they come from: selective is
    (len(keysecondary) > 0), useProbability is the value of
    (probability < 100), disable is (not enabled).  On an object with
    such values the entry is built, and none of the three is read from
    the input: an input field named selective, useProbability or disable
    changes nothing. *)
Theorem derived_fields_consistent (entry : json) (idx : nat) (b : bool) (p : json) :
  get_field entry [u "enabled"; u "active"] (JBool true) = Ok (JBool b) ->
  get_field entry [u "probability"; u "chance"; u "activation_chance"] (JInt 100)
    = Ok p ->
  comparable p = true ->
  (forall e,
      normalize entry idx = Ok e ->
      selective e = Nat.ltb 0 (length (keysecondary e))
      /\ probability e = p
      /\ py_lt_int (probability e) 100 = Ok (useProbability e)
      /\ (forall z, p = JInt z -> useProbability e = Z.ltb z 100)
      /\ disable e = negb b)
  /\ (forall d,
        entry = JDict d ->
        exists e,
          normalize entry idx = Ok e
          /\ (forall k v,
                In k [u "selective"; u "useProbability"; u "disable"] ->
                normalize (JDict (dict_set k v d)) idx = Ok e)).
Proof.
  intros Hen Hp Hcmp. split.
  - intros e He.
    destruct (@normalize_derived entry idx b p e Hen Hp He) as [Hsel [Hpr [Hup Hdis]]].
    repeat split; try assumption.
    + rewrite Hpr. exact Hup.
    + intros z ->. simpl in Hup. congruence.
  - intros d ->.
    destruct (proj1 (py_lt_int_comparable p 100) Hcmp) as [lt Hlt].
    assert (Hbuilt : exists e, normalize (JDict d) idx = Ok e).
    { unfold normalize. rewrite Hp. repeat field_value d.
      rewrite Hlt. cbn [bind]. eauto. }
    destruct Hbuilt as [e He].
    exists e. split; [exact He|].
    intros k v Hk. rewrite normalize_set_other; [exact He|].
    apply not_in_recognized.
    cbn [In] in Hk. destruct Hk as [<-|[<-|[<-|[]]]]; vm_compute; reflexivity.
Qed.

Lemma derived_fields_consistent_witness :
  exists e,
    normalize (JDict [(u "active", JBool false); (u "chance", JInt 40);
                      (u "secondary_keys", JStr (u "x, y"));
                      (u "selective", JBool false)]) 2 = Ok e
    /\ selective e = true /\ useProbability e = true /\ disable e = true.
Proof.
  destruct (@derived_fields_consistent
              (JDict [(u "active", JBool false); (u "chance", JInt 40);
                      (u "secondary_keys", JStr (u "x, y"));
                      (u "selective", JBool false)]) 2 false (JInt 40)
              eq_refl eq_refl eq_refl) as [Hall Hbuilt].
  destruct (Hbuilt _ eq_refl) as [e [He _]].
  destruct (Hall e He) as [Hsel [_ [_ [Hup Hdis]]]].
  exists e. split; [exact He|]. split; [|split].
  - rewrite Hsel. vm_compute in He. injection He as <-. reflexivity.
  - exact (Hup 40%Z eq_refl).
  - exact Hdis.
Defined.

(* ================================================================= *)
(** ** The probability field *)

(** C9 (counterexample): the entry [{"probability": 150}] is normalized
    with probability 150. *)
Lemma probability_in_range_fails : ~ probability_in_range.
Proof.
  intros H.
  destruct (H (JDict [(u "probability", JInt 150)]) 0%nat _ eq_refl) as [z [Hz Hr]].
  simpl in Hz. injection Hz as <-. lia.
Qed.

(** C9 (amended): the probability field of every entry built is the
    value found under the first present of probability, chance,
    activation_chance, copied as it is: it can be compared with 100 (an
    int, a float or a bool) but is not checked to be an integer nor to
    lie between 0 and 100; it is 100 when the entry has none of the three
    names. *)
Theorem probability_passed_through (entry : json) (idx : nat) (e : st_entry) :
  normalize entry idx = Ok e ->
  get_field entry [u "probability"; u "chance"; u "activation_chance"] (JInt 100)
    = Ok (probability e)
  /\ comparable (probability e) = true
  /\ ((forall n, In n [u "probability"; u "chance"; u "activation_chance"] ->
                 has_name entry n = false) ->
      probability e = JInt 100).
Proof.
  intros H. unfold normalize in H.
  repeat field_of_run H.
  match type of H with
  | context [py_lt_int ?p 100] =>
      destruct (py_lt_int p 100) as [lt|] eqn:Hlt; cbn [bind] in H;
      [ | discriminate H ];
      assert (Hcmp : comparable p = true)
        by (apply (py_lt_int_comparable p 100); eauto)
  end.
  injection H as <-. cbn [probability].
  split; [reflexivity|]. split; [exact Hcmp|].
  intros Hn. eapply get_field_no_name; eassumption.
Qed.

Lemma probability_passed_through_witness :
  exists e,
    normalize (JDict [(u "chance", JInt 150)]) 0 = Ok e
    /\ get_field (JDict [(u "chance", JInt 150)])
                 [u "probability"; u "chance"; u "activation_chance"] (JInt 100)
       = Ok (probability e)
    /\ probability e = JInt 150.
Proof.
  eexists. split; [vm_compute; reflexivity|]. split.
  - exact (proj1 (@probability_passed_through
                    (JDict [(u "chance", JInt 150)]) 0 _ eq_refl)).
  - reflexivity.
Defined.

(* ================================================================= *)
(** ** Where the loop body is defined *)

Example normalize_number : normalize (JInt 5) 0 = Raise TypeError.
Proof. reflexivity. Qed.

Example normalize_null : normalize JNull 0 = Raise TypeError.
Proof. reflexivity. Qed.

Example normalize_string_with_alias : normalize (JStr (u "monkey")) 0 = Raise TypeError.
Proof. reflexivity. Qed.

Example normalize_probability_string :
  normalize (JDict [(u "probability", JStr (u "high"))]) 0 = Raise TypeError.
Proof. reflexivity. Qed.

Example normalize_plain_string :
  normalize (JStr (u "abc")) 3 = Ok (default_entry 3).
Proof. reflexivity. Qed.

(** C1 (counterexample): on the raw entry [5] the first membership test
    ["key" in 5] raises [TypeError]. *)
Lemma normalize_total_fails : ~ normalize_total.
Proof.
  intros H. destruct (H (JInt 5) 0) as [e He]. discriminate He.
Qed.

(** On a list or a string a lookup gives the default when no candidate
    name is found in it, and raises [TypeError] at the subscript
    otherwise. *)
Lemma get_field_list (l : list json) (names : list str) (default : json) :
  get_field (JList l) names default
  = if forallb (fun n => negb (has_name (JList l) n)) names
    then Ok default else Raise TypeError.
Proof.
  induction names as [|n names IH]; [reflexivity|].
  cbn [get_field forallb py_contains has_name bind].
  destruct (existsb (is_str n) l); cbn [negb andb py_getitem]; [reflexivity|].
  exact IH.
Qed.

Lemma get_field_str (s : str) (names : list str) (default : json) :
  get_field (JStr s) names default
  = if forallb (fun n => negb (has_name (JStr s) n)) names
    then Ok default else Raise TypeError.
Proof.
  induction names as [|n names IH]; [reflexivity|].
  cbn [get_field forallb py_contains has_name bind].
  destruct (str_contains n s); cbn [negb andb py_getitem]; [reflexivity|].
  exact IH.
Qed.

(** Case analysis on the alias lists of a list or string entry, in the
    order of the calls. *)
Ltac alias_lists P :=
  repeat (match goal with
          | |- context [forallb P ?names] => destruct (forallb P names)
          end;
          cbn [bind andb];
          try (split; [intros [? ?]; discriminate | discriminate])).

(** C1 (amended): the loop body returns an entry, and raises nothing,
    exactly on these raw entries: an object whose resolved probability
    (100 when absent) is an int, a float or a bool; a list none of whose
    elements is a recognized alias name; a string in which no recognized
    alias name occurs.  On every other JSON value (numbers, booleans,
    null, an object with any other probability, a list or string holding
    an alias name) it raises. *)
Theorem normalize_defined_iff (entry : json) (idx : nat) :
  (exists e, normalize entry idx = Ok e) <-> normalizable entry = true.
Proof.
  destruct entry as [| b | z | f | s | l | d].
  1-4: (split; [intros [e He]; discriminate He | discriminate]).
  - unfold normalize, normalizable. rewrite !get_field_str.
    unfold recognized_names. cbn [concat]. rewrite app_nil_r, !forallb_app.
    set (P := fun n => negb (has_name (JStr s) n)).
    alias_lists P.
    split; [reflexivity | intros _; eexists; reflexivity].
  - unfold normalize, normalizable. rewrite !get_field_list.
    unfold recognized_names. cbn [concat]. rewrite app_nil_r, !forallb_app.
    set (P := fun n => negb (has_name (JList l) n)).
    alias_lists P.
    split; [reflexivity | intros _; eexists; reflexivity].
  - unfold normalize, normalizable. repeat field_value d.
    match goal with
    | |- context [py_lt_int ?p 100] =>
        destruct p; cbn [py_lt_int bind comparable];
        (split; [intros [? ?]; (reflexivity || discriminate)
                | intros ?; (discriminate || (eexists; reflexivity))])
    end.
Qed.

Lemma normalize_defined_iff_witness :
  (exists e, normalize (JDict [(u "chance", JBool true)]) 4 = Ok e)
  /\ (exists e, normalize (JList [JInt 1; JStr (u "x")]) 0 = Ok e)
  /\ normalizable (JList [JStr (u "keys")]) = false.
Proof.
  split; [|split].
  - apply (proj2 (normalize_defined_iff (JDict [(u "chance", JBool true)]) 4)).
    reflexivity.
  - apply (proj2 (normalize_defined_iff (JList [JInt 1; JStr (u "x")]) 0)).
    vm_compute. reflexivity.
  - destruct (normalizable (JList [JStr (u "keys")])) eqn:E; [|reflexivity].
    apply (proj2 (normalize_defined_iff (JList [JStr (u "keys")]) 0)) in E.
    destruct E as [e He]. discriminate He.
Defined.

(* ================================================================= *)
(** ** The document: positions, uids and keys *)

Lemma numbered_keys (sts : list st_entry) (idx : nat) :
  dict_keys (numbered idx sts) = map str_of_nat (seq idx (length sts)).
Proof.
  revert idx; induction sts as [|st sts IH]; intros idx; simpl; [reflexivity|].
  f_equal. apply IH.
Qed.

Lemma numbered_values (sts : list st_entry) (idx : nat) :
  dict_values (numbered idx sts) = sts.
Proof.
  revert idx; induction sts as [|st sts IH]; intros idx; simpl; [reflexivity|].
  f_equal. apply IH.
Qed.

Lemma numbered_get (sts : list st_entry) (idx i : nat) :
  dict_get (str_of_nat (idx + i)) (numbered idx sts) = nth_error sts i.
Proof.
  revert idx i; induction sts as [|st sts IH]; intros idx i; simpl.
  - destruct i; reflexivity.
  - destruct i as [|i]; simpl.
    + rewrite Nat.add_0_r, str_eqb_refl. reflexivity.
    + destruct (str_eqb (str_of_nat (idx + S i)) (str_of_nat idx)) eqn:E.
      * apply str_eqb_eq, str_of_nat_inj in E. lia.
      * rewrite <- (IH (S idx) i). f_equal. f_equal. lia.
Qed.

Lemma dict_mem_app (V : Type) (k : str) (a b : dict V) :
  dict_mem k (a ++ b) = dict_mem k a || dict_mem k b.
Proof.
  induction a as [|[k0 v0] a IH]; simpl; [reflexivity|].
  rewrite IH, orb_assoc. reflexivity.
Qed.

Lemma normalize_uid (entry : json) (idx : nat) (e : st_entry) :
  normalize entry idx = Ok e -> uid e = idx /\ displayIndex e = idx.
Proof.
  intros H. unfold normalize in H. repeat field_of_run H.
  match type of H with
  | context [py_lt_int ?p 100] =>
      destruct (py_lt_int p 100); cbn [bind] in H; [ | discriminate H ]
  end.
  injection H as <-. split; reflexivity.
Qed.

(** The loop appends one entry per input element, in input order, under
    the key of its position. *)
Lemma convert_loop_numbered (input : list json) :
  forall (idx : nat) (acc es : dict st_entry),
    convert_loop idx input acc = Ok es ->
    (forall j, idx <= j -> dict_mem (str_of_nat j) acc = false) ->
    exists sts,
      es = acc ++ numbered idx sts
      /\ length sts = length input
      /\ (forall i raw, nth_error input i = Some raw ->
            exists e, nth_error sts i = Some e /\ normalize raw (idx + i) = Ok e).
Proof.
  induction input as [|raw input IH]; intros idx acc es H Hfresh; simpl in H.
  - injection H as <-. exists []. rewrite app_nil_r.
    repeat split. intros [|i] raw' Hn; discriminate Hn.
  - destruct (normalize raw idx) as [st|] eqn:Hst; cbn [bind] in H; [|discriminate H].
    rewrite dict_set_fresh in H by (apply Hfresh; lia).
    apply (IH (S idx)) in H.
    + destruct H as [sts [Hes [Hlen Hnth]]].
      exists (st :: sts). split; [|split].
      * rewrite Hes, <- app_assoc. reflexivity.
      * simpl. rewrite Hlen. reflexivity.
      * intros [|i] raw' Hn; simpl in Hn.
        -- injection Hn as <-. exists st. rewrite Nat.add_0_r. split; [reflexivity|assumption].
        -- destruct (Hnth i raw' Hn) as [e [He1 He2]]. exists e.
           split; [exact He1|]. replace (idx + S i) with (S idx + i) by lia. exact He2.
    + intros j Hj. rewrite dict_mem_app, Hfresh by lia. simpl.
      rewrite orb_false_r. apply str_eqb_neq. intros E.
      apply str_of_nat_inj in E. lia.
Qed.

Lemma convert_loop_defined (input : list json) :
  forall (idx : nat) (acc : dict st_entry),
    (exists es, convert_loop idx input acc = Ok es)
    <-> (forall i raw, nth_error input i = Some raw ->
                       exists e, normalize raw (idx + i) = Ok e).
Proof.
  induction input as [|raw input IH]; intros idx acc; cbn [convert_loop].
  - split; [intros _ [|i] raw Hi; discriminate Hi | eauto].
  - split.
    + intros [es H] i raw' Hi.
      destruct (normalize raw idx) as [st|] eqn:Hst; cbn [bind] in H; [|discriminate H].
      destruct i as [|i]; simpl in Hi.
      * injection Hi as <-. rewrite Nat.add_0_r. eauto.
      * replace (idx + S i) with (S idx + i) by lia.
        eapply (proj1 (IH (S idx) _)); eauto.
    + intros H.
      destruct (H 0 raw eq_refl) as [st Hst]. rewrite Nat.add_0_r in Hst.
      rewrite Hst. cbn [bind]. apply IH.
      intros i raw' Hi. replace (S idx + i) with (idx + S i) by lia.
      apply H. exact Hi.
Qed.

(** C3: [convert_to_sillytavern] produces a document exactly when the
    loop body is defined on every element; in the document produced from
    N raw entries, the keys of the entry map are the strings "0" to
    "N-1" in this order, and the entry stored at position i, which is
    also the one under key str(i), is the normalization of the i-th raw
    entry, with uid = displayIndex = i. *)
Theorem convert_positions (input : list json) (lorebook_name : str) :
  ((exists doc, convert_to_sillytavern input lorebook_name = Ok doc)
   <-> (forall i raw, nth_error input i = Some raw ->
                      exists e, normalize raw i = Ok e))
  /\ (forall doc,
        convert_to_sillytavern input lorebook_name = Ok doc ->
        dict_keys (entries doc) = map str_of_nat (seq 0 (length input))
        /\ length (dict_values (entries doc)) = length input
        /\ (forall i raw,
              nth_error input i = Some raw ->
              exists e,
                normalize raw i = Ok e
                /\ nth_error (dict_values (entries doc)) i = Some e
                /\ dict_get (str_of_nat i) (entries doc) = Some e
                /\ uid e = i /\ displayIndex e = i)).
Proof.
  unfold convert_to_sillytavern. split.
  - rewrite <- (convert_loop_defined input 0 []). split.
    + intros [doc H].
      destruct (convert_loop 0 input []) as [es|]; [eauto | discriminate H].
    + intros [es ->]. cbn [bind]. eauto.
  - intros doc H.
    destruct (convert_loop 0 input []) as [es|] eqn:Hloop; cbn [bind] in H;
      [|discriminate H].
    injection H as <-. cbn [entries].
    apply convert_loop_numbered in Hloop; [|reflexivity].
    destruct Hloop as [sts [-> [Hlen Hnth]]]. cbn [app].
    rewrite numbered_keys, numbered_values, Hlen.
    split; [reflexivity|]. split; [reflexivity|].
    intros i raw Hi. destruct (Hnth i raw Hi) as [e [He1 He2]].
    cbn [Nat.add] in He2. exists e.
    split; [exact He2|]. split; [exact He1|]. split.
    + rewrite <- He1. apply (numbered_get sts 0 i).
    + eapply normalize_uid. exact He2.
Qed.

Lemma convert_positions_witness :
  exists doc,
    convert_to_sillytavern [JDict [(u "title", JStr (u "Sword"))]; JList []; JDict []]
                           (u "Weapons") = Ok doc
    /\ dict_keys (entries doc) = [u "0"; u "1"; u "2"].
Proof.
  eexists. split; [vm_compute; reflexivity|].
  exact (proj1 (proj2 (convert_positions
                         [JDict [(u "title", JStr (u "Sword"))]; JList []; JDict []]
                         (u "Weapons")) _ eq_refl)).
Defined.

(* ================================================================= *)
(** ** [extract_entries] on a dict *)

Example extract_skips_unusable :
  extract_entries (JDict [(u "entries", JInt 5); (u "items", JList [JInt 1])])
  = [JInt 1].
Proof. reflexivity. Qed.

Example extract_single_entry :
  extract_entries (JDict [(u "entries", JInt 5)]) = [JDict [(u "entries", JInt 5)]].
Proof. reflexivity. Qed.

Example extract_precedence :
  extract_entries (JDict [(u "items", JList [JInt 2]); (u "entries", JList [JInt 1])])
  = [JInt 1].
Proof. reflexivity. Qed.

(** C2 (counterexample): for [{"entries": 5, "items": [1]}] the key
    [entries] is present with an unusable value, and the result is the
    list under [items], not the empty list. *)
Lemma first_present_key_wins_fails : ~ first_present_key_wins.
Proof.
  intros H.
  specialize (H [(u "entries", JInt 5); (u "items", JList [JInt 1])]
                (u "entries") (JInt 5) eq_refl eq_refl eq_refl).
  discriminate H.
Qed.

Lemma scan_containers_skip (d : dict json) (k : str) (rest : list str) :
  usable_at d k = false ->
  scan_containers (k :: rest) d = scan_containers rest d.
Proof.
  unfold usable_at. cbn [scan_containers]. intros H.
  destruct (dict_mem k d); [|reflexivity].
  destruct (dict_get k d) as [[| b | z | f | s | l | c]|];
    try reflexivity; discriminate H.
Qed.

Lemma scan_containers_skip_all (d : dict json) (pre rest : list str) :
  (forall k, In k pre -> usable_at d k = false) ->
  scan_containers (pre ++ rest) d = scan_containers rest d.
Proof.
  induction pre as [|k pre IH]; intros H; [reflexivity|].
  rewrite <- app_comm_cons, scan_containers_skip by (apply H; left; reflexivity).
  apply IH. intros k' Hk'. apply H. right; exact Hk'.
Qed.

Lemma scan_containers_found (d : dict json) (k : str) (rest : list str)
      (v : json) (es : list json) :
  dict_get k d = Some v ->
  as_entries v = Some es ->
  scan_containers (k :: rest) d = Some es.
Proof.
  intros Hget Hes. cbn [scan_containers].
  assert (Hmem : dict_mem k d = true) by (apply dict_mem_get; eauto).
  rewrite Hmem, Hget.
  destruct v; simpl in Hes; try discriminate Hes; injection Hes as <-; reflexivity.
Qed.

(** C2 (amended): a recognized container key that is present but holds
    neither a list nor a dict is skipped, and the scan falls through to
    the next candidate key: the result is what the first candidate key
    holding a list or a dict contributes, the list itself or the values
    of the dict in order. *)
Theorem extract_entries_first_usable (d : dict json) (pre post : list str)
        (k : str) (v : json) (es : list json) :
  container_keys = pre ++ k :: post ->
  (forall k', In k' pre -> usable_at d k' = false) ->
  dict_get k d = Some v ->
  as_entries v = Some es ->
  extract_entries (JDict d) = es.
Proof.
  intros Hkeys Hpre Hget Hes. cbn [extract_entries].
  rewrite Hkeys, (@scan_containers_skip_all d pre _ Hpre).
  rewrite (@scan_containers_found d k post v es Hget Hes). reflexivity.
Qed.

Lemma extract_entries_first_usable_witness :
  extract_entries
    (JDict [(u "entries", JStr (u "none")); (u "data", JNull);
            (u "worldInfo", JDict [(u "a", JInt 1); (u "b", JInt 2)])])
  = [JInt 1; JInt 2].
Proof.
  apply (@extract_entries_first_usable
           [(u "entries", JStr (u "none")); (u "data", JNull);
            (u "worldInfo", JDict [(u "a", JInt 1); (u "b", JInt 2)])]
           [u "entries"; u "items"; u "data"; u "lorebook"] [u "world_info"]
           (u "worldInfo") (JDict [(u "a", JInt 1); (u "b", JInt 2)])).
  - reflexivity.
  - intros k' [<-|[<-|[<-|[<-|[]]]]]; reflexivity.
  - reflexivity.
  - reflexivity.
Defined.

(** C10: on a dict, a recognized container key that is present but
    holds neither a list nor a dict does not end the scan, which goes on
    with the candidate keys after it, in their order: the result is what
    the first of them holding a list or a dict contributes, whatever the
    keys further on hold; and when no recognized container key holds a
    list or a dict, the result is the one-element list made of the whole
    dict, never the empty list. *)
Theorem extract_entries_fallthrough (d : dict json) :
  (forall pre k mid k' post v es,
      container_keys = pre ++ k :: mid ++ k' :: post ->
      (forall m, In m pre -> usable_at d m = false) ->
      dict_mem k d = true ->
      usable_at d k = false ->
      (forall m, In m mid -> usable_at d m = false) ->
      dict_get k' d = Some v ->
      as_entries v = Some es ->
      extract_entries (JDict d) = es)
  /\ (forall pre k post,
        container_keys = pre ++ k :: post ->
        (forall m, In m pre -> usable_at d m = false) ->
        dict_mem k d = true ->
        usable_at d k = false ->
        (forall m, In m post -> usable_at d m = false) ->
        extract_entries (JDict d) = [JDict d])
  /\ ((forall k, In k container_keys -> usable_at d k = false) ->
      extract_entries (JDict d) = [JDict d]
      /\ extract_entries (JDict d) <> []).
Proof.
  split; [|split].
  - intros pre k mid k' post v es Hkeys Hpre _ Hk Hmid Hget Hes.
    cbn [extract_entries].
    rewrite Hkeys, (@scan_containers_skip_all d pre _ Hpre).
    rewrite (@scan_containers_skip d k _ Hk).
    rewrite (@scan_containers_skip_all d mid _ Hmid).
    rewrite (@scan_containers_found d k' post v es Hget Hes). reflexivity.
  - intros pre k post Hkeys Hpre _ Hk Hpost. cbn [extract_entries].
    rewrite Hkeys, (@scan_containers_skip_all d pre _ Hpre).
    rewrite (@scan_containers_skip d k post Hk).
    rewrite <- (app_nil_r post).
    rewrite (@scan_containers_skip_all d post [] Hpost). reflexivity.
  - intros Hall.
    assert (E : extract_entries (JDict d) = [JDict d]).
    { cbn [extract_entries].
      rewrite <- (app_nil_r container_keys).
      rewrite (@scan_containers_skip_all d container_keys [] Hall). reflexivity. }
    split; [exact E | rewrite E; discriminate].
Qed.

Lemma extract_entries_fallthrough_witness :
  extract_entries (JDict [(u "items", JInt 0); (u "world_info", JList [JInt 1]);
                          (u "lorebook", JList [JNull]); (u "data", JStr (u "x"))])
  = [JNull]
  /\ extract_entries (JDict [(u "items", JInt 0); (u "name", JStr (u "n"))])
     = [JDict [(u "items", JInt 0); (u "name", JStr (u "n"))]]
  /\ extract_entries (JDict [(u "data", JBool true); (u "foo", JStr (u "bar"))])
     = [JDict [(u "data", JBool true); (u "foo", JStr (u "bar"))]].
Proof.
  split; [|split].
  - apply (proj1 (extract_entries_fallthrough
                    [(u "items", JInt 0); (u "world_info", JList [JInt 1]);
                     (u "lorebook", JList [JNull]); (u "data", JStr (u "x"))])
             [u "entries"] (u "items") [u "data"] (u "lorebook")
             [u "worldInfo"; u "world_info"] (JList [JNull]) [JNull]).
    + reflexivity.
    + intros m [<-|[]]; reflexivity.
    + reflexivity.
    + reflexivity.
    + intros m [<-|[]]; reflexivity.
    + reflexivity.
    + reflexivity.
  - apply (proj1 (proj2 (extract_entries_fallthrough
                    [(u "items", JInt 0); (u "name", JStr (u "n"))]))
             [u "entries"] (u "items")
             [u "data"; u "lorebook"; u "worldInfo"; u "world_info"]).
    + reflexivity.
    + intros m [<-|[]]; reflexivity.
    + reflexivity.
    + reflexivity.
    + intros m [<-|[<-|[<-|[<-|[]]]]]; reflexivity.
  - apply (proj2 (proj2 (extract_entries_fallthrough
                    [(u "data", JBool true); (u "foo", JStr (u "bar"))]))).
    intros k [<-|[<-|[<-|[<-|[<-|[<-|[]]]]]]]; reflexivity.
Defined.

(* ================================================================= *)
(** ** [main] with nothing to convert *)

(** C5: when the input file is read and parsed and extraction gives no
    entry, the run prints the error line, exits with status 1, and leaves
    the files as they were: no output file is written. *)
Theorem main_no_entries
        (filesystem : Type) (rt : runtime filesystem)
        (script input_file output_name : str) (more : list str)
        (fs : filesystem) (text : str) (raw_data : json) :
  open_read rt input_file fs = Ok text ->
  json_load rt text = Ok raw_data ->
  extract_entries raw_data = [] ->
  let run := main rt (script :: input_file :: output_name :: more) fs in
  ending run = Exit 1
  /\ exit_status (ending run) <> 0%Z
  /\ stdout run = [u "Error: No entries found in input"]
  /\ files run = fs.
Proof.
  intros Hfile Hload Hnone. cbn [main]. rewrite Hfile. cbn [bind].
  rewrite Hload, Hnone.
  cbn. repeat split. discriminate.
Qed.

Lemma main_no_entries_witness :
  let run := main (sample_runtime (JList []))
                  [u "convert.py"; u "in.json"; u "Out"]
                  [(u "in.json", u "[]")] in
  exit_status (ending run) <> 0%Z /\ files run = [(u "in.json", u "[]")].
Proof.
  destruct (@main_no_entries (dict str) (sample_runtime (JList []))
              (u "convert.py") (u "in.json") (u "Out") []
              [(u "in.json", u "[]")] (u "[]") (JList [])
              eq_refl eq_refl eq_refl) as [_ [Hs [_ Hf]]].
  split; [exact Hs | exact Hf].
Defined.

(* ================================================================= *)
(** ** More on [get_field] *)

Lemma dict_get_set_same (V : Type) (k : str) (v : V) (d : dict V) :
  dict_get k (dict_set k v d) = Some v.
Proof.
  induction d as [|[k0 v0] d IH]; simpl.
  - rewrite str_eqb_refl. reflexivity.
  - destruct (str_eqb k k0) eqn:E; simpl; rewrite E; [reflexivity | exact IH].
Qed.

Lemma get_field_raise (entry : json) (names : list str) (default : json) (e : exn) :
  get_field entry names default = Raise e ->
  e = TypeError /\ (forall d, entry <> JDict d).
Proof.
  induction names as [|n names IH]; cbn [get_field]; [discriminate|].
  destruct entry as [| b | z | f | s | l | d]; cbn [py_contains bind].
  1-4: (intros H; injection H as <-; split; [reflexivity | discriminate]).
  - destruct (str_contains n s); [|exact IH].
    cbn [py_getitem]. intros H; injection H as <-. split; [reflexivity | discriminate].
  - destruct (existsb (is_str n) l); [|exact IH].
    cbn [py_getitem]. intros H; injection H as <-. split; [reflexivity | discriminate].
  - destruct (dict_mem n d) eqn:E; [|exact IH].
    apply dict_mem_get in E as [v Hv]. cbn [py_getitem]. rewrite Hv. discriminate.
Qed.

(** X1: [get_field] never raises on a mapping, and the guarded subscript
    [entry[name]] never raises [KeyError]: the only exception it can
    raise is [TypeError], and only on an entry that is not a mapping. *)
Theorem get_field_raises_only_type_error (names : list str) (default : json) :
  (forall d, exists v, get_field (JDict d) names default = Ok v)
  /\ (forall entry e,
        get_field entry names default = Raise e ->
        e = TypeError /\ (forall d, entry <> JDict d)).
Proof.
  split.
  - intros d. apply get_field_dict_total.
  - intros entry e. apply get_field_raise.
Qed.

Lemma get_field_raises_only_type_error_witness :
  get_field (JList [JStr (u "keys")]) [u "key"; u "keys"] JNull = Raise TypeError
  /\ JList [JStr (u "keys")] <> JDict [].
Proof.
  destruct (proj2 (get_field_raises_only_type_error [u "key"; u "keys"] JNull)
              (JList [JStr (u "keys")]) TypeError eq_refl) as [_ H].
  split; [reflexivity | apply H].
Defined.

(** X2: storing a value under a candidate name and looking it up gives
    it back, provided the candidates tried before that name are other
    names that the mapping does not hold. *)
Theorem get_field_set_lookup (d : dict json) (pre post : list str) (n : str)
        (v default : json) :
  (forall m, In m pre -> m <> n /\ dict_mem m d = false) ->
  get_field (JDict (dict_set n v d)) (pre ++ n :: post) default = Ok v.
Proof.
  intros H. apply get_field_first.
  - intros m Hm. destruct (H m Hm) as [Hne Hmem].
    rewrite dict_mem_set_other by exact Hne. exact Hmem.
  - apply dict_get_set_same.
Qed.

Lemma get_field_set_lookup_witness :
  get_field (JDict (dict_set (u "title") (JStr (u "Sword"))
                             [(u "memo", JStr (u "old")); (u "title", JNull)]))
            [u "name"; u "comment"; u "title"; u "memo"; u "label"] JNull
  = Ok (JStr (u "Sword")).
Proof.
  apply (@get_field_set_lookup
           [(u "memo", JStr (u "old")); (u "title", JNull)]
           [u "name"; u "comment"] [u "memo"; u "label"] (u "title")
           (JStr (u "Sword")) JNull).
  intros m [<-|[<-|[]]]; (split; [intros E; discriminate E | reflexivity]).
Defined.

(* ================================================================= *)
(** ** More on [parse_keys] *)

Lemma split_app (sep : codepoint) (a b : str) :
  split sep (a ++ sep :: b) = split sep a ++ split sep b.
Proof.
  induction a as [|c a IH]; cbn [app split].
  - rewrite N.eqb_refl. reflexivity.
  - rewrite IH. destruct (N.eqb c sep); [reflexivity|].
    destruct (split sep a) as [|p ps] eqn:Hs; [now apply split_not_nil in Hs|].
    reflexivity.
Qed.

Lemma split_sep_free (sep : codepoint) (p : str) :
  existsb (N.eqb sep) p = false -> split sep p = [p].
Proof.
  induction p as [|c p IH]; cbn [existsb split]; [reflexivity|].
  intros H. apply orb_false_iff in H as [Hc Hp].
  rewrite N.eqb_sym, Hc, (IH Hp). reflexivity.
Qed.

Lemma lstrip_all_space (s : str) : forallb isspace s = true -> lstrip s = [].
Proof.
  induction s as [|c s IH]; cbn [forallb lstrip]; [reflexivity|].
  intros H. apply andb_true_iff in H as [Hc Hs]. rewrite Hc. exact (IH Hs).
Qed.

Lemma strip_nil_iff (s : str) : strip s = [] <-> forallb isspace s = true.
Proof.
  split.
  - intros H. destruct (strip_split s) as [a [b [Hs [Ha Hb]]]].
    rewrite H in Hs. cbn [app] in Hs. rewrite Hs, forallb_app, Ha, Hb. reflexivity.
  - intros H. unfold strip. rewrite (lstrip_all_space s H). reflexivity.
Qed.

Lemma hd_rev_last (s : str) : hd 0%N (rev s) = last s 0%N.
Proof.
  destruct s as [|c s]; [reflexivity|].
  destruct (exists_last (l := c :: s)) as [r [z Hz]]; [discriminate|].
  rewrite Hz, rev_app_distr, last_last. reflexivity.
Qed.

Lemma lstrip_id (s : str) : isspace (hd 0%N s) = false -> lstrip s = s.
Proof.
  destruct s as [|c s]; cbn [hd lstrip]; [reflexivity|].
  intros ->. reflexivity.
Qed.

(** A trimmed key is left as it is by the string branch. *)
Lemma strip_trimmed (k : str) :
  trimmed_piece (JStr k) = true -> strip k = k /\ nonempty k = true.
Proof.
  unfold trimmed_piece. intros H.
  apply andb_true_iff in H as [H Hlast]. apply andb_true_iff in H as [H Hhd].
  apply andb_true_iff in H as [Hne _].
  apply negb_true_iff in Hlast, Hhd.
  split; [|exact Hne]. unfold strip, rstrip.
  rewrite (lstrip_id k Hhd), lstrip_id, rev_involutive; [reflexivity|].
  rewrite hd_rev_last. exact Hlast.
Qed.

Lemma trimmed_sep_free (k : str) :
  trimmed_piece (JStr k) = true -> existsb (N.eqb comma) k = false.
Proof.
  unfold trimmed_piece. intros H.
  apply andb_true_iff in H as [H _]. apply andb_true_iff in H as [H _].
  apply andb_true_iff in H as [_ H]. apply negb_true_iff in H. exact H.
Qed.

Lemma split_join_trimmed (k : str) (keys : list str) :
  Forall (fun x => trimmed_piece (JStr x) = true) (k :: keys) ->
  split comma (join comma (k :: keys)) = k :: keys.
Proof.
  revert k; induction keys as [|k' keys IH]; intros k H.
  - apply split_sep_free, trimmed_sep_free. inversion H; assumption.
  - inversion H as [|? ? Hk Hrest]; subst.
    change (join comma (k :: k' :: keys)) with (k ++ comma :: join comma (k' :: keys)).
    rewrite split_app, (split_sep_free comma k (trimmed_sep_free k Hk)), (IH k' Hrest).
    reflexivity.
Qed.

(** X3: writing a list of keys as one comma-separated string and
    parsing it gives the keys back, when every key is non-empty, holds no
    comma and has no whitespace at either end. *)
Theorem parse_keys_join (keys : list str) :
  Forall (fun k => trimmed_piece (JStr k) = true) keys ->
  parse_keys (JStr (join comma keys)) = parse_keys (JList (map JStr keys)).
Proof.
  intros H. cbn [parse_keys].
  destruct keys as [|k keys]; [reflexivity|].
  rewrite (split_join_trimmed H).
  induction H as [|x l Hx Hl IH]; [reflexivity|].
  cbn [flat_map map]. destruct (strip_trimmed x Hx) as [-> Hne].
  rewrite IH. destruct x; [discriminate Hne | reflexivity].
Qed.

Lemma parse_keys_join_witness :
  parse_keys (JStr (u "sword,long blade,x"))
  = [JStr (u "sword"); JStr (u "long blade"); JStr (u "x")].
Proof.
  apply (@parse_keys_join [u "sword"; u "long blade"; u "x"]).
  repeat constructor.
Defined.

(** X4: parsing two key strings joined by a comma gives the keys of the
    first followed by the keys of the second. *)
Theorem parse_keys_concat (a b : str) :
  parse_keys (JStr (a ++ comma :: b)) = parse_keys (JStr a) ++ parse_keys (JStr b).
Proof.
  cbn [parse_keys]. rewrite split_app, flat_map_app. reflexivity.
Qed.

Lemma forallb_split (sep : codepoint) (P : codepoint -> bool) (s : str) :
  forallb (fun c => N.eqb c sep || P c) s = forallb (forallb P) (split sep s).
Proof.
  induction s as [|c s IH]; cbn [forallb split]; [reflexivity|].
  rewrite IH. destruct (N.eqb c sep); cbn [orb forallb andb]; [reflexivity|].
  destruct (split sep s) as [|p ps] eqn:Hs; [now apply split_not_nil in Hs|].
  cbn [forallb]. rewrite andb_assoc. reflexivity.
Qed.

Lemma flat_map_nil_iff (A B : Type) (f : A -> list B) (l : list A) :
  flat_map f l = [] <-> Forall (fun x => f x = []) l.
Proof.
  induction l as [|x l IH]; cbn [flat_map].
  - split; [constructor | reflexivity].
  - split.
    + intros H. apply app_eq_nil in H as [Hx Hl]. constructor; [exact Hx | apply IH, Hl].
    + intros H. inversion H as [|? ? Hx Hl]; subst. rewrite Hx. apply IH, Hl.
Qed.

(** X5: a string gives no key at all exactly when it is made of commas
    and whitespace only (the empty string included). *)
Theorem parse_keys_empty_iff (s : str) :
  parse_keys (JStr s) = []
  <-> forallb (fun c => N.eqb c comma || isspace c) s = true.
Proof.
  cbn [parse_keys]. rewrite forallb_split, flat_map_nil_iff, forallb_forall, Forall_forall.
  split; intros H p Hp; specialize (H p Hp).
  - apply strip_nil_iff. destruct (strip p); [reflexivity | discriminate H].
  - apply strip_nil_iff in H. rewrite H. reflexivity.
Qed.

Lemma parse_keys_empty_iff_witness :
  parse_keys (JStr (u " , ,,  ")) = [].
Proof.
  apply (proj2 (parse_keys_empty_iff (u " , ,,  "))). reflexivity.
Defined.

(* ================================================================= *)
(** ** More on the loop body and the loop *)

Lemma py_lt_int_raise (v : json) (n : Z) (e : exn) :
  py_lt_int v n = Raise e -> e = TypeError.
Proof.
  destruct v; cbn [py_lt_int]; intros H; try discriminate H;
    injection H as <-; reflexivity.
Qed.

Lemma normalize_raise (entry : json) (idx : nat) (e : exn) :
  normalize entry idx = Raise e -> e = TypeError.
Proof.
  unfold normalize. intros H.
  repeat match type of H with
         | context [get_field ?en ?names ?default] =>
             let Hv := fresh "Hv" in
             destruct (get_field en names default) eqn:Hv; cbn [bind] in H;
             [ | injection H as <-; exact (proj1 (get_field_raise _ _ _ Hv)) ]
         end.
  match type of H with
  | context [py_lt_int ?p 100] =>
      destruct (py_lt_int p 100) eqn:Hlt; cbn [bind] in H;
      [ discriminate H | injection H as <-; exact (py_lt_int_raise _ _ Hlt) ]
  end.
Qed.

Lemma convert_loop_raise (input : list json) :
  forall (idx : nat) (acc : dict st_entry) (e : exn),
    convert_loop idx input acc = Raise e ->
    exists i bad,
      nth_error input i = Some bad
      /\ normalize bad (idx + i) = Raise e
      /\ (forall j raw, j < i -> nth_error input j = Some raw ->
                        exists st, normalize raw (idx + j) = Ok st).
Proof.
  induction input as [|raw input IH]; intros idx acc e H; cbn [convert_loop] in H.
  - discriminate H.
  - destruct (normalize raw idx) as [st|e'] eqn:Hst; cbn [bind] in H.
    + destruct (IH (S idx) _ e H) as [i [bad [Hi [Hbad Hbefore]]]].
      exists (S i), bad. split; [exact Hi|]. split.
      * replace (idx + S i) with (S idx + i) by lia. exact Hbad.
      * intros [|j] raw' Hj Hn; simpl in Hn.
        -- injection Hn as <-. rewrite Nat.add_0_r. eauto.
        -- replace (idx + S j) with (S idx + j) by lia.
           apply (Hbefore j raw'); [lia | exact Hn].
    + injection H as <-. exists 0, raw.
      rewrite Nat.add_0_r. split; [reflexivity|]. split; [exact Hst|].
      intros j raw' Hj. lia.
Qed.

(** X6: the conversion raises nothing but [TypeError], and when it
    raises, it is at the first raw entry on which the loop body raises:
    every entry before it was normalized. *)
Theorem convert_raises_at_first_bad_entry (input : list json) (lorebook_name : str)
        (e : exn) :
  convert_to_sillytavern input lorebook_name = Raise e ->
  e = TypeError
  /\ exists i bad,
       nth_error input i = Some bad
       /\ normalize bad i = Raise TypeError
       /\ (forall j raw, j < i -> nth_error input j = Some raw ->
                         exists st, normalize raw j = Ok st).
Proof.
  unfold convert_to_sillytavern. intros H.
  destruct (convert_loop 0 input []) as [es|e'] eqn:Hloop; cbn [bind] in H;
    [discriminate H|].
  injection H as <-.
  destruct (convert_loop_raise input 0 [] Hloop) as [i [bad [Hi [Hbad Hbefore]]]].
  cbn [Nat.add] in Hbad.
  assert (He : e' = TypeError) by (eapply normalize_raise; exact Hbad).
  subst e'. split; [reflexivity|].
  exists i, bad. split; [exact Hi|]. split; [exact Hbad|].
  intros j raw Hj Hn. apply (Hbefore j raw Hj Hn).
Qed.

Lemma convert_raises_at_first_bad_entry_witness :
  exists i bad,
    nth_error [JDict []; JNull; JInt 3] i = Some bad
    /\ normalize bad i = Raise TypeError
    /\ (forall j raw, j < i -> nth_error [JDict []; JNull; JInt 3] j = Some raw ->
                      exists st, normalize raw j = Ok st).
Proof.
  exact (proj2 (@convert_raises_at_first_bad_entry
                  [JDict []; JNull; JInt 3] (u "L") TypeError eq_refl)).
Defined.

Lemma dict_mem_of_get (V : Type) (k : str) (d : dict V) :
  dict_mem k d = match dict_get k d with Some _ => true | None => false end.
Proof.
  induction d as [|[k0 v0] d IH]; simpl; [reflexivity|].
  destruct (str_eqb k k0); simpl; [reflexivity | exact IH].
Qed.

Lemma get_field_agree (d1 d2 : dict json) (names : list str) (default : json) :
  (forall n, In n names -> dict_get n d1 = dict_get n d2) ->
  get_field (JDict d1) names default = get_field (JDict d2) names default.
Proof.
  induction names as [|n names IH]; intros H; cbn [get_field py_contains py_getitem bind];
    [reflexivity|].
  rewrite !dict_mem_of_get, (H n) by (left; reflexivity).
  rewrite IH by (intros m Hm; apply H; right; exact Hm). reflexivity.
Qed.

(** X7: the loop body reads an object through the recognized alias
    names only: two objects holding the same values under these names
    give the same result, whatever other fields they hold and in whatever
    order the fields come. *)
Theorem normalize_reads_aliases_only (d1 d2 : dict json) (idx : nat) :
  (forall n, In n recognized_names -> dict_get n d1 = dict_get n d2) ->
  normalize (JDict d1) idx = normalize (JDict d2) idx.
Proof.
  intros H. unfold normalize.
  rewrite !(@get_field_agree d1 d2) by (intros n Hn; apply H; in_alias_table).
  reflexivity.
Qed.

Lemma normalize_reads_aliases_only_witness :
  normalize (JDict [(u "id", JInt 9); (u "text", JStr (u "t")); (u "name", JStr (u "n"))]) 1
  = normalize (JDict [(u "name", JStr (u "n")); (u "text", JStr (u "t"))]) 1.
Proof.
  apply (@normalize_reads_aliases_only
           [(u "id", JInt 9); (u "text", JStr (u "t")); (u "name", JStr (u "n"))]
           [(u "name", JStr (u "n")); (u "text", JStr (u "t"))] 1).
  intros n Hn. cbn [dict_get].
  destruct (str_eqb n (u "id")) eqn:E.
  - apply str_eqb_eq in E. subst n. exfalso. revert Hn.
    apply not_in_recognized. vm_compute. reflexivity.
  - destruct (str_eqb n (u "text")) eqn:Et.
    + apply str_eqb_eq in Et. subst n. reflexivity.
    + destruct (str_eqb n (u "name")); reflexivity.
Defined.

Lemma get_field_default_change (entry : json) (names : list str)
      (d1 d2 v : json) :
  get_field entry names d1 = Ok v ->
  get_field entry names d2 = Ok v
  \/ (v = d1 /\ get_field entry names d2 = Ok d2).
Proof.
  induction names as [|n names IH]; cbn [get_field].
  - intros H. injection H as <-. right. split; reflexivity.
  - destruct (py_contains n entry) as [[|]|]; cbn [bind]; [left; assumption | exact IH | discriminate].
Qed.

(** X8: the position of a raw entry shows in its uid, its displayIndex
    and its default label only: if the entry is normalized at position i
    it is normalized at any position j, with the same fields otherwise,
    the label being the same or going from "Entry i" to "Entry j". *)
Theorem normalize_position (entry : json) (i j : nat) (e : st_entry) :
  normalize entry i = Ok e ->
  exists c,
    normalize entry j = Ok (reindex j c e)
    /\ (c = comment e
        \/ (comment e = JStr (u "Entry " ++ str_of_nat i)
            /\ c = JStr (u "Entry " ++ str_of_nat j))).
Proof.
  intros H. unfold normalize in H. repeat field_of_run H.
  match type of H with
  | context [py_lt_int ?p 100] =>
      destruct (py_lt_int p 100) as [lt|] eqn:Hlt; cbn [bind] in H;
      [ | discriminate H ]
  end.
  injection H as <-.
  match goal with
  | Hc : get_field entry _ (JStr (u "Entry " ++ str_of_nat i)) = Ok ?v |- _ =>
      destruct (@get_field_default_change _ _ _ (JStr (u "Entry " ++ str_of_nat j)) _ Hc)
        as [Hc' | [Heq Hc']]; [exists v | exists (JStr (u "Entry " ++ str_of_nat j))]
  end.
  all: unfold normalize;
    repeat match goal with
           | Hx : get_field ?en ?names ?default = Ok _
             |- context [get_field ?en ?names ?default] =>
               rewrite Hx; cbn [bind]
           end;
    rewrite Hlt; cbn [bind]; split; [reflexivity|].
  - left. reflexivity.
  - right. split; [exact Heq | reflexivity].
Qed.

Lemma normalize_position_witness :
  exists e c,
    normalize (JDict [(u "text", JStr (u "t"))]) 2 = Ok e
    /\ normalize (JDict [(u "text", JStr (u "t"))]) 5 = Ok (reindex 5 c e)
    /\ c = JStr (u "Entry 5").
Proof.
  destruct (normalize (JDict [(u "text", JStr (u "t"))]) 2) as [e|] eqn:He;
    [ | vm_compute in He; discriminate He ].
  destruct (@normalize_position _ 2 5 e He) as [c [Hc Hlabel]].
  exists e, c. split; [reflexivity|]. split; [exact Hc|].
  vm_compute in He. injection He as <-.
  destruct Hlabel as [-> | [_ ->]]; [|reflexivity].
  vm_compute in Hc. discriminate Hc.
Defined.

Lemma not_in_names (k : str) (names : list str) :
  existsb (str_eqb k) names = false -> ~ In k names.
Proof.
  intros H Hin.
  assert (Ht : existsb (str_eqb k) names = true)
    by (apply existsb_exists; exists k; split; [exact Hin | apply str_eqb_refl]).
  congruence.
Qed.

Lemma get_field_key_set (d : dict json) (v : json) :
  get_field (JDict (dict_set (u "key") v d))
            [u "key"; u "keys"; u "keyword"; u "keywords"] (JList []) = Ok v.
Proof.
  apply (@get_field_first _ [] _ (u "key") v).
  - intros m [].
  - apply dict_get_set_same.
Qed.

Lemma get_field_keysecondary_set (d : dict json) (v : json) :
  get_field (JDict (dict_set (u "keysecondary") v d))
            [u "keysecondary"; u "secondary_keys"; u "keys_secondary"] (JList [])
  = Ok v.
Proof.
  apply (@get_field_first _ [] _ (u "keysecondary") v).
  - intros m [].
  - apply dict_get_set_same.
Qed.

(** X9: the keys of an entry can be spelled as a list or as a
    comma-separated string: two values of the field [key] (or of the
    field [keysecondary]) that [parse_keys] reads as the same list give
    the same result of the loop body. *)
Theorem normalize_key_spelling (d : dict json) (idx : nat) (v1 v2 : json) :
  parse_keys v1 = parse_keys v2 ->
  normalize (JDict (dict_set (u "key") v1 d)) idx
  = normalize (JDict (dict_set (u "key") v2 d)) idx
  /\ normalize (JDict (dict_set (u "keysecondary") v1 d)) idx
     = normalize (JDict (dict_set (u "keysecondary") v2 d)) idx.
Proof.
  intros H. unfold normalize. split.
  - rewrite !get_field_key_set. cbn [bind].
    rewrite !get_field_set_other by (apply not_in_names; vm_compute; reflexivity).
    rewrite H. reflexivity.
  - rewrite !get_field_keysecondary_set.
    rewrite !get_field_set_other by (apply not_in_names; vm_compute; reflexivity).
    cbn [bind]. rewrite H. reflexivity.
Qed.

Lemma normalize_key_spelling_witness :
  normalize (JDict (dict_set (u "key") (JStr (u "sword, blade")) [(u "name", JStr (u "S"))])) 0
  = normalize (JDict (dict_set (u "key") (JList [JStr (u "sword"); JStr (u "blade")])
                               [(u "name", JStr (u "S"))])) 0.
Proof.
  apply (proj1 (@normalize_key_spelling [(u "name", JStr (u "S"))] 0
                  (JStr (u "sword, blade"))
                  (JList [JStr (u "sword"); JStr (u "blade")]) eq_refl)).
Defined.

Lemma convert_loop_app (a b : list json) :
  forall (idx : nat) (acc : dict st_entry),
    convert_loop idx (a ++ b) acc
    = (acc' <- convert_loop idx a acc ;; convert_loop (idx + length a) b acc').
Proof.
  induction a as [|raw a IH]; intros idx acc; cbn [app convert_loop length bind].
  - rewrite Nat.add_0_r. reflexivity.
  - destruct (normalize raw idx) as [st|]; cbn [bind]; [|reflexivity].
    rewrite IH. replace (S idx + length a) with (idx + S (length a)) by lia.
    reflexivity.
Qed.

(** X10: appending raw entries leaves the entries already converted as
    they are: the entries of the document for [a ++ b] are those of the
    document for [a], in the same order under the same keys, followed by
    one entry per element of [b] under the keys that come next. *)
Theorem convert_append (a b : list json) (lorebook_name : str) (doc : document) :
  convert_to_sillytavern (a ++ b) lorebook_name = Ok doc ->
  exists doc_a more,
    convert_to_sillytavern a lorebook_name = Ok doc_a
    /\ entries doc = entries doc_a ++ more
    /\ dict_keys more = map str_of_nat (seq (length a) (length b)).
Proof.
  unfold convert_to_sillytavern. intros H.
  rewrite convert_loop_app in H.
  destruct (convert_loop 0 a []) as [es_a|] eqn:Ha; cbn [bind] in H; [|discriminate H].
  destruct (convert_loop (0 + length a) b es_a) as [es|] eqn:Hb; cbn [bind] in H;
    [|discriminate H].
  injection H as <-. cbn [entries Nat.add] in *.
  apply convert_loop_numbered in Ha; [|reflexivity].
  destruct Ha as [sts_a [Hes_a [Hlen_a _]]]. cbn [app] in Hes_a.
  apply convert_loop_numbered in Hb.
  - destruct Hb as [sts_b [Hes [Hlen_b _]]].
    eexists. exists (numbered (length a) sts_b).
    split; [reflexivity|]. cbn [entries]. split; [exact Hes|].
    rewrite numbered_keys, Hlen_b. reflexivity.
  - intros j Hj. apply dict_mem_false_get. subst es_a.
    pose proof (numbered_get sts_a 0 j) as Hg. cbn [Nat.add] in Hg.
    rewrite Hg. apply nth_error_None. lia.
Qed.

Lemma convert_append_witness :
  exists (doc_a : document) (more : dict st_entry),
    convert_to_sillytavern [JDict []] (u "L") = Ok doc_a
    /\ dict_keys more = [u "1"; u "2"].
Proof.
  destruct (convert_to_sillytavern ([JDict []] ++ [JList []; JDict []]) (u "L"))
    as [doc|] eqn:Hdoc; [ | vm_compute in Hdoc; discriminate Hdoc ].
  destruct (@convert_append [JDict []] [JList []; JDict []] (u "L") doc Hdoc)
    as [doc_a [more [Ha [_ Hkeys]]]].
  exists doc_a, more. split; [exact Ha | exact Hkeys].
Defined.

(** X16: an entry is disabled exactly when its resolved enabled value
    is falsy in Python: null, false, 0, 0.0, the empty string, the empty
    list or the empty object.  Any other value, the string "false"
    included, leaves it enabled. *)
Theorem normalize_disable_falsy (entry : json) (idx : nat) (e : st_entry) (v : json) :
  normalize entry idx = Ok e ->
  get_field entry [u "enabled"; u "active"] (JBool true) = Ok v ->
  (disable e = true
   <-> v = JNull \/ v = JBool false \/ v = JInt 0
       \/ (exists s, v = JFloat (S754_zero s))
       \/ v = JStr [] \/ v = JList [] \/ v = JDict []).
Proof.
  intros H Hen. unfold normalize in H. rewrite Hen in H.
  repeat field_of_run H.
  match type of H with
  | context [py_lt_int ?p 100] =>
      destruct (py_lt_int p 100); cbn [bind] in H; [ | discriminate H ]
  end.
  injection H as <-. cbn [disable]. rewrite negb_true_iff.
  destruct v as [| b | z | f | s | l | d]; cbn [truthy].
  - split; [auto | reflexivity].
  - destruct b; split; try discriminate; auto.
    intros [H|[H|[H|[[s H]|[H|[H|H]]]]]]; discriminate H.
  - rewrite negb_false_iff, Z.eqb_eq. split.
    + intros ->. auto.
    + intros [H|[H|[H|[[s H]|[H|[H|H]]]]]]; try discriminate H. congruence.
  - destruct f; split; try discriminate; eauto 8;
      intros [H|[H|[H|[[s' H]|[H|[H|H]]]]]]; discriminate H.
  - destruct s; cbn [negb]; split; try discriminate; auto 8.
    intros [H|[H|[H|[[s' H]|[H|[H|H]]]]]]; discriminate H.
  - destruct l; cbn [negb]; split; try discriminate; auto 8.
    intros [H|[H|[H|[[s' H]|[H|[H|H]]]]]]; discriminate H.
  - destruct d; cbn [negb]; split; try discriminate; auto 8.
    intros [H|[H|[H|[[s' H]|[H|[H|H]]]]]]; discriminate H.
Qed.

Lemma normalize_disable_falsy_witness :
  exists e,
    normalize (JDict [(u "enabled", JStr (u "false"))]) 0 = Ok e
    /\ disable e = false.
Proof.
  eexists. split; [vm_compute; reflexivity|].
  destruct (disable _) eqn:E; [|reflexivity].
  apply (proj1 (@normalize_disable_falsy
                  (JDict [(u "enabled", JStr (u "false"))]) 0 _
                  (JStr (u "false")) eq_refl eq_refl)) in E.
  destruct E as [H|[H|[H|[[s H]|[H|[H|H]]]]]]; discriminate H.
Defined.

(* ================================================================= *)
(** ** More on [extract_entries] *)

Lemma scan_containers_find (d : dict json) (keys : list str) :
  scan_containers keys d
  = match find (usable_at d) keys with
    | Some k => match dict_get k d with
                | Some v => as_entries v
                | None => None
                end
    | None => None
    end.
Proof.
  induction keys as [|k keys IH]; cbn [find]; [reflexivity|].
  destruct (usable_at d k) eqn:E.
  - unfold usable_at in E. cbn [scan_containers]. rewrite dict_mem_of_get.
    destruct (dict_get k d) as [v|]; [|discriminate E].
    destruct v; cbn [as_entries] in *; try discriminate E; reflexivity.
  - rewrite <- IH. apply (@scan_containers_skip d k keys E).
Qed.

(** X11: [extract_entries] gives the empty list, which [main] reports
    as "No entries found", exactly in these cases: the input is the empty
    list; the input is a dict whose first container key holding a list or
    a dict holds an empty one; the input is null, a boolean, a number or
    a string. *)
Theorem extract_entries_empty_iff (data : json) :
  extract_entries data = []
  <-> match data with
      | JList l => l = []
      | JDict d =>
          exists k v, find (usable_at d) container_keys = Some k
                      /\ dict_get k d = Some v
                      /\ as_entries v = Some []
      | _ => True
      end.
Proof.
  destruct data as [| b | z | f | s | l | d]; cbn [extract_entries];
    try (split; [intros _; exact I | reflexivity]); try reflexivity.
  rewrite scan_containers_find.
  destruct (find (usable_at d) container_keys) as [k|] eqn:Hfind.
  - destruct (dict_get k d) as [v|] eqn:Hget.
    + destruct (as_entries v) as [es|] eqn:Hes.
      * split.
        -- intros ->. exists k, v. repeat split; assumption.
        -- intros [k' [v' [Hk [Hv Hnil]]]]. congruence.
      * split; [discriminate|]. intros [k' [v' [Hk [Hv Hnil]]]]. congruence.
    + split; [discriminate|]. intros [k' [v' [Hk [Hv Hnil]]]]. congruence.
  - split; [discriminate|]. intros [k' [v' [Hk _]]]. discriminate Hk.
Qed.

Lemma extract_entries_empty_iff_witness :
  extract_entries (JDict [(u "entries", JStr (u "x")); (u "data", JDict [])]) = []
  /\ extract_entries (JStr (u "lore")) = [].
Proof.
  split.
  - apply (proj2 (extract_entries_empty_iff
                    (JDict [(u "entries", JStr (u "x")); (u "data", JDict [])]))).
    exists (u "data"), (JDict []). repeat split.
  - apply (proj2 (extract_entries_empty_iff (JStr (u "lore")))). exact I.
Defined.

(* ================================================================= *)
(** ** More on [main] *)

Lemma convert_raise_type_error (input : list json) (lorebook_name : str) (e : exn) :
  convert_to_sillytavern input lorebook_name = Raise e -> e = TypeError.
Proof.
  unfold convert_to_sillytavern. intros H.
  destruct (convert_loop 0 input []) as [es|e'] eqn:Hloop; cbn [bind] in H;
    [discriminate H|].
  injection H as <-.
  destruct (convert_loop_raise input 0 [] Hloop) as [i [bad [_ [Hbad _]]]].
  eapply normalize_raise. exact Hbad.
Qed.

Lemma convert_header (input : list json) (lorebook_name : str) (doc : document) :
  convert_to_sillytavern input lorebook_name = Ok doc ->
  name doc = lorebook_name
  /\ description doc = lorebook_name ++ u " World Info"
  /\ extensions doc = []
  /\ length (entries doc) = length input.
Proof.
  unfold convert_to_sillytavern. intros H.
  destruct (convert_loop 0 input []) as [es|] eqn:Hloop; cbn [bind] in H;
    [|discriminate H].
  injection H as <-. cbn [name description extensions entries].
  repeat split.
  apply convert_loop_numbered in Hloop; [|reflexivity].
  destruct Hloop as [sts [-> [Hlen _]]]. cbn [app].
  rewrite <- Hlen.
  transitivity (length (dict_values (numbered 0 sts))).
  - unfold dict_values. rewrite length_map. reflexivity.
  - rewrite numbered_values. reflexivity.
Qed.

(** Every way through [main], with what decides it. *)
Lemma main_cases (filesystem : Type) (rt : runtime filesystem)
      (argv : list str) (fs : filesystem) :
  let run := main rt argv fs in
  (files run = fs
   /\ (ending run = Uncaught IndexError /\ stdout run = []
       \/ (ending run = Exit 1 /\ stdout run <> [])
       \/ (exists e, ending run = Uncaught e /\ stdout run = [])))
  \/ exists output_name raw_data doc,
       converted rt argv fs output_name raw_data doc
       /\ ((exists e, open_write rt (output_name ++ u ".json") fs = Raise e
                      /\ ending run = Uncaught e /\ stdout run = []
                      /\ files run = fs)
           \/ exists opened,
                open_write rt (output_name ++ u ".json") fs = Ok opened
                /\ ((exists e, json_dump rt doc (output_name ++ u ".json") opened
                               = (files run, Some e)
                               /\ ending run = Uncaught e /\ stdout run = [])
                    \/ (json_dump rt doc (output_name ++ u ".json") opened
                        = (files run, None)
                        /\ ending run = Returned
                        /\ stdout run
                           = [u "Converted "
                              ++ str_of_nat (length (extract_entries raw_data))
                              ++ u " entries -> " ++ output_name ++ u ".json"]))).
Proof.
  destruct argv as [|script [|input_file [|output_name more]]]; cbn [main].
  - left. split; [reflexivity|]. left. split; reflexivity.
  - left. split; [reflexivity|]. right; left. split; [reflexivity | discriminate].
  - left. split; [reflexivity|]. right; left. split; [reflexivity | discriminate].
  - destruct (open_read rt input_file fs) as [content|e] eqn:Hfile; cbn [bind].
    2: { left. destruct e; cbn [ending stdout files]; (split; [reflexivity|]);
         try (right; left; split; [reflexivity | discriminate]);
         right; right; eexists; split; reflexivity. }
    destruct (json_load rt content) as [raw_data|e] eqn:Hload.
    2: { left. destruct e; cbn [ending stdout files]; (split; [reflexivity|]);
         try (right; left; split; [reflexivity | discriminate]);
         right; right; eexists; split; reflexivity. }
    destruct (extract_entries raw_data) as [|raw found] eqn:Hfound; cbn [truthy negb].
    { left. split; [reflexivity|]. right; left. split; [reflexivity | discriminate]. }
    destruct (convert_to_sillytavern (raw :: found) output_name) as [doc|e] eqn:Hconv.
    2: { left. split; [reflexivity|]. right; right. eexists. split; reflexivity. }
    right. exists output_name, raw_data, doc. split.
    { exists script, input_file, more, content. rewrite Hfound.
      repeat split; try assumption. discriminate. }
    rewrite Hfound.
    destruct (open_write rt (output_name ++ u ".json") fs) as [opened|e] eqn:Hopen.
    2: { left. exists e. repeat split. }
    right. exists opened. split; [reflexivity|].
    destruct (json_dump rt doc (output_name ++ u ".json") opened) as [written [e|]];
      cbn [ending stdout files].
    + left. exists e. repeat split.
    + right. repeat split.
Qed.

(** X12: a run ends with exit status 0 only if there are at least two
    arguments, the input file is read and parsed, extraction gives at
    least one raw entry, the conversion raises nothing, and the output
    file is opened and the document dumped into it without an
    exception. *)
Theorem main_success_requires
        (filesystem : Type) (rt : runtime filesystem)
        (argv : list str) (fs : filesystem) :
  exit_status (ending (main rt argv fs)) = 0%Z ->
  exists output_name raw_data doc opened,
    converted rt argv fs output_name raw_data doc
    /\ open_write rt (output_name ++ u ".json") fs = Ok opened
    /\ json_dump rt doc (output_name ++ u ".json") opened
       = (files (main rt argv fs), None).
Proof.
  intros H0.
  destruct (main_cases rt argv fs) as [[_ Hend] | [output_name [raw_data [doc [Hc Hw]]]]].
  - exfalso.
    destruct Hend as [[He _] | [[He _] | [e [He _]]]]; rewrite He in H0; discriminate H0.
  - exists output_name, raw_data, doc.
    destruct Hw as [[e [_ [He _]]] | [opened [Hopen Hdump]]].
    + rewrite He in H0. discriminate H0.
    + exists opened. split; [exact Hc|]. split; [exact Hopen|].
      destruct Hdump as [[e [_ [He _]]] | [Hd _]]; [|exact Hd].
      rewrite He in H0. discriminate H0.
Qed.

Lemma main_success_requires_witness :
  exists output_name raw_data doc,
    converted (sample_runtime (JDict [(u "name", JStr (u "a"))]))
              [u "convert.py"; u "in.json"; u "Out"] [(u "in.json", u "...")]
              output_name raw_data doc.
Proof.
  destruct (@main_success_requires (dict str)
              (sample_runtime (JDict [(u "name", JStr (u "a"))]))
              [u "convert.py"; u "in.json"; u "Out"] [(u "in.json", u "...")]
              eq_refl) as [output_name [raw_data [doc [opened [Hc _]]]]].
  exists output_name, raw_data, doc. exact Hc.
Defined.

(** X13: a run that returns normally has printed the one line
    "Converted N entries -> <output>.json", N being the number of raw
    entries extracted, and what it dumped to <output>.json is the
    document made of these N entries, named after the output name. *)
Theorem main_returns_after_writing
        (filesystem : Type) (rt : runtime filesystem)
        (argv : list str) (fs : filesystem) :
  ending (main rt argv fs) = Returned ->
  exists output_name raw_data doc opened,
    converted rt argv fs output_name raw_data doc
    /\ name doc = output_name
    /\ description doc = output_name ++ u " World Info"
    /\ length (entries doc) = length (extract_entries raw_data)
    /\ open_write rt (output_name ++ u ".json") fs = Ok opened
    /\ json_dump rt doc (output_name ++ u ".json") opened
       = (files (main rt argv fs), None)
    /\ stdout (main rt argv fs)
       = [u "Converted " ++ str_of_nat (length (extract_entries raw_data))
          ++ u " entries -> " ++ output_name ++ u ".json"].
Proof.
  intros Hret.
  destruct (main_cases rt argv fs) as [[_ Hend] | [output_name [raw_data [doc [Hc Hw]]]]].
  - exfalso.
    destruct Hend as [[He _] | [[He _] | [e [He _]]]]; rewrite He in Hret;
      discriminate Hret.
  - exists output_name, raw_data, doc.
    destruct Hw as [[e [_ [He _]]] | [opened [Hopen Hdump]]].
    + rewrite He in Hret. discriminate Hret.
    + exists opened.
      destruct Hdump as [[e [_ [He _]]] | [Hd [_ Hout]]].
      * rewrite He in Hret. discriminate Hret.
      * assert (Hconv := Hc).
        destruct Hconv as [script [input_file [more [content [_ [_ [_ [_ Hconv]]]]]]]].
        destruct (convert_header _ _ Hconv) as [Hname [Hdesc [_ Hlen]]].
        repeat split; assumption.
Qed.

Lemma main_returns_after_writing_witness :
  let run := main (sample_runtime (JList [JDict []; JDict []]))
                  [u "convert.py"; u "lore.json"; u "lore"]
                  [(u "lore.json", u "[{}, {}]")] in
  stdout run = [u "Converted 2 entries -> lore.json"]
  /\ files run = [(u "lore.json", u "lore")].
Proof.
  destruct (@main_returns_after_writing (dict str)
              (sample_runtime (JList [JDict []; JDict []]))
              [u "convert.py"; u "lore.json"; u "lore"]
              [(u "lore.json", u "[{}, {}]")] eq_refl)
    as [output_name [raw_data [doc [opened [_ [_ [_ [_ [_ [_ Hout]]]]]]]]]].
  split; reflexivity.
Defined.

(** X14: one raw entry on which the loop body raises aborts the whole
    run: the [TypeError] is not caught, nothing is printed and no file is
    written, whatever the other entries are. *)
Theorem main_aborts_on_bad_entry
        (filesystem : Type) (rt : runtime filesystem)
        (script input_file output_name : str) (more : list str)
        (fs : filesystem) (text : str) (raw_data : json) (i : nat) (bad : json) :
  open_read rt input_file fs = Ok text ->
  json_load rt text = Ok raw_data ->
  nth_error (extract_entries raw_data) i = Some bad ->
  (forall e, normalize bad i <> Ok e) ->
  let run := main rt (script :: input_file :: output_name :: more) fs in
  ending run = Uncaught TypeError
  /\ exit_status (ending run) = 1%Z
  /\ stdout run = []
  /\ files run = fs.
Proof.
  intros Hfile Hload Hbad Hraise. cbn [main]. rewrite Hfile. cbn [bind]. rewrite Hload.
  destruct (extract_entries raw_data) as [|raw found] eqn:Hfound;
    [destruct i; discriminate Hbad|].
  cbn [truthy negb].
  destruct (convert_to_sillytavern (raw :: found) output_name) as [doc|e] eqn:Hconv.
  - exfalso.
    assert (Hdef : exists es, convert_loop 0 (raw :: found) [] = Ok es).
    { unfold convert_to_sillytavern in Hconv.
      destruct (convert_loop 0 (raw :: found) []) as [es|]; [eauto | discriminate Hconv]. }
    destruct (proj1 (convert_loop_defined (raw :: found) 0 []) Hdef i bad Hbad) as [e He].
    exact (Hraise e He).
  - apply convert_raise_type_error in Hconv. subst e.
    cbn [ending stdout files exit_status]. repeat split.
Qed.

Lemma main_aborts_on_bad_entry_witness :
  let run := main (sample_runtime (JList [JDict []; JInt 7]))
                  [u "convert.py"; u "in.json"; u "Out"]
                  [(u "in.json", u "[{}, 7]")] in
  ending run = Uncaught TypeError /\ files run = [(u "in.json", u "[{}, 7]")].
Proof.
  destruct (@main_aborts_on_bad_entry (dict str)
              (sample_runtime (JList [JDict []; JInt 7]))
              (u "convert.py") (u "in.json") (u "Out") []
              [(u "in.json", u "[{}, 7]")] (u "[{}, 7]")
              (JList [JDict []; JInt 7]) 1 (JInt 7) eq_refl eq_refl eq_refl)
    as [Hend [_ [_ Hfiles]]].
  - intros e He. discriminate He.
  - split; [exact Hend | exact Hfiles].
Defined.

(** X15: a run changes the file system only by opening the output file
    and dumping into it, after the conversion of every extracted entry
    has succeeded.  A run ended by [sys.exit] has status 1, has printed a
    message and has left the files as they were; a run ended by an
    uncaught exception has printed nothing, and has left the files as
    they were unless it had opened the output file, the files then being
    as the dump left them; a run that returns has dumped the whole
    document. *)
Theorem main_outcomes
        (filesystem : Type) (rt : runtime filesystem)
        (argv : list str) (fs : filesystem) :
  match ending (main rt argv fs) with
  | Exit code =>
      code = 1%Z /\ stdout (main rt argv fs) <> [] /\ files (main rt argv fs) = fs
  | Uncaught e =>
      stdout (main rt argv fs) = []
      /\ (files (main rt argv fs) = fs
          \/ exists output_name raw_data doc opened,
               converted rt argv fs output_name raw_data doc
               /\ open_write rt (output_name ++ u ".json") fs = Ok opened
               /\ fst (json_dump rt doc (output_name ++ u ".json") opened)
                  = files (main rt argv fs))
  | Returned =>
      exists output_name raw_data doc opened,
        converted rt argv fs output_name raw_data doc
        /\ open_write rt (output_name ++ u ".json") fs = Ok opened
        /\ json_dump rt doc (output_name ++ u ".json") opened
           = (files (main rt argv fs), None)
  end.
Proof.
  destruct (main_cases rt argv fs) as [[Hfs Hend] | [output_name [raw_data [doc [Hc Hw]]]]].
  - destruct Hend as [[He Hout] | [[He Hout] | [e [He Hout]]]]; rewrite He.
    + split; [exact Hout | left; exact Hfs].
    + repeat split; assumption.
    + split; [exact Hout | left; exact Hfs].
  - destruct Hw as [[e [_ [He [Hout Hfs]]]] | [opened [Hopen Hdump]]].
    + rewrite He. split; [exact Hout | left; exact Hfs].
    + destruct Hdump as [[e [Hd [He Hout]]] | [Hd [He _]]]; rewrite He.
      * split; [exact Hout|]. right.
        exists output_name, raw_data, doc, opened.
        split; [exact Hc|]. split; [exact Hopen|]. rewrite Hd. reflexivity.
      * exists output_name, raw_data, doc, opened. repeat split; assumption.
Qed.
